(** * tagged-error: the [TaggedError] class factory of [src/index.ts]

    A shallow embedding of the factory and of the part of the ECMAScript
    object model its constructor runs on: ordinary objects with own
    properties, a prototype link and an extensibility flag, the internal
    methods [[Get]], [[Set]] and [[SetPrototypeOf]], [Object.assign],
    [Object.setPrototypeOf], the [instanceof] operator, and the [Error]
    constructor.  The TypeScript annotations ([readonly], [Readonly<A>],
    the constructor-type cast) are erased by the compiler and have no
    run-time counterpart; what is modelled is the emitted class.

    Two things are left to the host and stay outside the model: the
    non-standard [stack] property some engines install on error objects, and
    payloads that are not plain data (accessor properties, proxies). *)

From Stdlib Require Import String Ascii ZArith Bool Lia.
From stdpp Require Import base option list numbers strings pretty.

Local Open Scope string_scope.
Local Open Scope list_scope.

(** ** Values, properties, objects and the heap *)

Abbreviation loc := nat.

Inductive value : Type :=
  | VUndefined
  | VNull
  | VBool (b : bool)
  | VNumber (z : Z)
  | VString (s : string)
  | VObject (l : loc).

(** A property is a data property with its [[Writable]] attribute, or the
    accessor pair that [Object.prototype.__proto__] carries (its getter
    returns the receiver's prototype, its setter re-parents the receiver).
    Getters and setters written by a user are not represented.  The
    constructor can only meet one on an object that a payload key
    [__proto__] re-parents the instance to, so the fields of produced values
    are described for payloads without that key, or with one whose value is
    not an object. *)
Inductive property : Type :=
  | PData (v : value) (writable : bool)
  | PProtoAccessor.

(** What [[Construct]] does for a function object. *)
Inductive callable : Type :=
  | NotCallable
  | Builtin
  | ErrorCtor
  | TaggedErrorClass (tag : string)
  | DerivedClass.

Record object : Type := Obj {
  proto : option loc;
  extensible : bool;
  props : list (string * property);
  call : callable
}.

Abbreviation heap := (list object).

Global Instance value_eq_dec : EqDecision value.
Proof. solve_decision. Defined.
Global Instance property_eq_dec : EqDecision property.
Proof. solve_decision. Defined.
Global Instance callable_eq_dec : EqDecision callable.
Proof. solve_decision. Defined.

(** Own properties are kept in creation order, one entry per key. *)
Fixpoint assoc {A : Type} (k : string) (l : list (string * A)) : option A :=
  match l with
  | [] => None
  | (k', x) :: l' => if String.eqb k k' then Some x else assoc k l'
  end.

(** Writing key [k]: an existing entry keeps its place, a new one goes last.
    (Keys that are integer indices sort first in a real object; the order is
    only relied on where no key is one.) *)
Fixpoint upsert {A : Type} (k : string) (x : A) (l : list (string * A))
  : list (string * A) :=
  match l with
  | [] => [(k, x)]
  | (k', y) :: l' =>
      if String.eqb k k' then (k, x) :: l' else (k', y) :: upsert k x l'
  end.

Definition get_own (o : object) (k : string) : option property :=
  assoc k (props o).

Definition set_props (o : object) (ps : list (string * property)) : object :=
  Obj (proto o) (extensible o) ps (call o).

Definition set_proto (o : object) (p : option loc) : object :=
  Obj p (extensible o) (props o) (call o).

Definition proto_value (p : option loc) : value :=
  match p with Some l => VObject l | None => VNull end.

(** ** Completions: a state-and-exception monad over the heap *)

Inductive exn : Type :=
  | TypeError
  | Thrown (v : value).

(** [Stuck] is not a JavaScript outcome: it marks a dangling reference or a
    cyclic prototype chain, neither of which a real heap contains. *)
Inductive completion (A : Type) : Type :=
  | Normal (a : A) (h : heap)
  | Abrupt (e : exn) (h : heap)
  | Stuck.
Arguments Normal {A} a h.
Arguments Abrupt {A} e h.
Arguments Stuck {A}.

Definition M (A : Type) : Type := heap -> completion A.

Definition ret {A : Type} (a : A) : M A := fun h => Normal a h.

Definition bind {A B : Type} (m : M A) (f : A -> M B) : M B :=
  fun h =>
    match m h with
    | Normal a h' => f a h'
    | Abrupt e h' => Abrupt e h'
    | Stuck => Stuck
    end.

Definition throw {A : Type} (e : exn) : M A := fun h => Abrupt e h.


Declare Scope js_scope.
Delimit Scope js_scope with js.
Notation "'let!' x ':=' m 'in' k" := (bind m (fun x => k))
  (at level 10, x pattern, m at level 100, k at level 200) : js_scope.
Notation "'run!' m 'in' k" := (bind m (fun _ => k))
  (at level 10, m at level 100, k at level 200) : js_scope.
Local Open Scope js_scope.

(** ** Internal methods of ordinary objects (ECMA-262, clause 10.1) *)

(** OrdinaryGet: the first own property along the prototype chain. *)
Fixpoint ordinary_get (fuel : nat) (h : heap) (l : loc) (k : string)
    (receiver : loc) : option value :=
  match fuel with
  | 0 => None
  | S f =>
      match h !! l with
      | None => None
      | Some o =>
          match get_own o k with
          | Some (PData v _) => Some v
          | Some PProtoAccessor =>
              match h !! receiver with
              | Some r => Some (proto_value (proto r))
              | None => None
              end
          | None =>
              match proto o with
              | Some p => ordinary_get f h p k receiver
              | None => Some VUndefined
              end
          end
      end
  end.

Definition Get (l : loc) (k : string) : M value :=
  fun h =>
    match ordinary_get (S (length h)) h l k l with
    | Some v => Normal v h
    | None => Stuck
    end.

(** Does the chain starting at [p] pass through [target]? *)
Fixpoint reaches (fuel : nat) (h : heap) (p : option loc) (target : loc)
  : option bool :=
  match p with
  | None => Some false
  | Some l =>
      if Nat.eqb l target then Some true
      else
        match fuel with
        | 0 => None
        | S f =>
            match h !! l with
            | Some o => reaches f h (proto o) target
            | None => None
            end
        end
  end.

(** OrdinarySetPrototypeOf: refuses on a non-extensible object and on a
    cycle. *)
Definition ordinary_set_prototype_of (O : loc) (V : option loc) : M bool :=
  fun h =>
    match h !! O with
    | None => Stuck
    | Some o =>
        if decide (proto o = V) then Normal true h
        else if negb (extensible o) then Normal false h
        else
          match reaches (length h) h V O with
          | None => Stuck
          | Some true => Normal false h
          | Some false => Normal true (<[O := set_proto o V]> h)
          end
    end.

(** The step of OrdinarySetWithOwnDescriptor taken once the lookup found a
    writable data property, or nothing: write on the receiver. *)
Definition set_on_receiver (receiver : loc) (k : string) (v : value) : M bool :=
  fun h =>
    match h !! receiver with
    | None => Stuck
    | Some r =>
        match get_own r k with
        | Some (PData _ true) =>
            Normal true
              (<[receiver := set_props r (upsert k (PData v true) (props r))]> h)
        | Some (PData _ false) => Normal false h
        | Some PProtoAccessor => Normal false h
        | None =>
            if extensible r
            then Normal true
                   (<[receiver := set_props r (upsert k (PData v true) (props r))]> h)
            else Normal false h
        end
    end.

(** The setter of [Object.prototype.__proto__] (ECMA-262, B.2.2.1.2). *)
Definition proto_setter (receiver : loc) (v : value) : M bool :=
  match v with
  | VObject p =>
      let! ok := ordinary_set_prototype_of receiver (Some p) in
      if ok : bool then ret true else throw TypeError
  | VNull =>
      let! ok := ordinary_set_prototype_of receiver None in
      if ok : bool then ret true else throw TypeError
  | _ => ret true
  end.

(** OrdinarySet. *)
Fixpoint ordinary_set (fuel : nat) (l : loc) (k : string) (v : value)
    (receiver : loc) : M bool :=
  fun h =>
    match fuel with
    | 0 => Stuck
    | S f =>
        match h !! l with
        | None => Stuck
        | Some o =>
            match get_own o k with
            | Some (PData _ true) => set_on_receiver receiver k v h
            | Some (PData _ false) => Normal false h
            | Some PProtoAccessor => proto_setter receiver v h
            | None =>
                match proto o with
                | Some p => ordinary_set f p k v receiver h
                | None => set_on_receiver receiver k v h
                end
            end
        end
    end.

(** [Set(O, P, V, true)]: a refused write is a TypeError.  This is what a
    strict-mode assignment [o.k = v] and [Object.assign] both perform. *)
Definition Put (l : loc) (k : string) (v : value) : M unit :=
  fun h =>
    (let! ok := ordinary_set (S (length h)) l k v l in
     if ok : bool then ret tt else throw TypeError) h.

(** CreateDataPropertyOrThrow, as a class field initialiser performs it.
    (Compiled for an older target the initialiser is the assignment
    [this._tag = tag] at the same place; on a fresh instance the two agree.) *)
Definition define_field (l : loc) (k : string) (v : value) : M unit :=
  fun h =>
    match h !! l with
    | None => Stuck
    | Some o =>
        match get_own o k with
        | None =>
            if extensible o
            then Normal tt (<[l := set_props o (upsert k (PData v true) (props o))]> h)
            else Abrupt TypeError h
        | Some _ =>
            Normal tt (<[l := set_props o (upsert k (PData v true) (props o))]> h)
        end
    end.

(** ** The host functions the constructor calls *)

(** The payload: the own enumerable string-keyed data properties of the
    [args] object, in [[OwnPropertyKeys]] order. *)
Abbreviation payload := (list (string * value)).

(** [Object.assign(target, source)]: one [Set(target, k, v, true)] per own
    enumerable property of the source, in key order. *)
Fixpoint Object_assign (target : loc) (source : payload) : M unit :=
  match source with
  | [] => ret tt
  | (k, v) :: rest => run! Put target k v in Object_assign target rest
  end.

(** [Object.setPrototypeOf(O, proto)]. *)
Definition Object_setPrototypeOf (O : loc) (p : value) : M unit :=
  match p with
  | VObject l =>
      let! ok := ordinary_set_prototype_of O (Some l) in
      if ok : bool then ret tt else throw TypeError
  | VNull =>
      let! ok := ordinary_set_prototype_of O None in
      if ok : bool then ret tt else throw TypeError
  | _ => throw TypeError
  end.

(** [v instanceof C], through OrdinaryHasInstance. *)
Definition instance_of (v : value) (C : loc) : M bool :=
  fun h =>
    match h !! C with
    | None => Stuck
    | Some c =>
        match call c with
        | NotCallable => Abrupt TypeError h
        | _ =>
            match v with
            | VObject l =>
                (let! P := Get C "prototype" in
                 match P with
                 | VObject p =>
                     fun h' =>
                       match h' !! l with
                       | None => Stuck
                       | Some o =>
                           match reaches (length h') h' (proto o) p with
                           | Some b => Normal b h'
                           | None => Stuck
                           end
                       end
                 | _ => throw TypeError
                 end) h
            | _ => Normal false h
            end
        end
    end.

Definition alloc (o : object) : M loc :=
  fun h => Normal (length h) (h ++ [o]).

(** Fixed addresses of the intrinsics every realm starts with. *)
Definition Object_prototype : loc := 0.
Definition Error_prototype : loc := 1.
Definition Error_ctor : loc := 2.

(** [Error()] called as a constructor with no message: an ordinary
    extensible object whose prototype is [new_target.prototype], without an
    own [message].  Engines may add a non-enumerable [stack] of their own;
    the object here holds the enumerable own properties, those that
    [Object.keys] lists, and nothing below is stated of all own properties. *)
Definition Error_construct (new_target : loc) : M loc :=
  let! P := Get new_target "prototype" in
  alloc (Obj (Some match P with VObject p => p | _ => Error_prototype end)
             true [] NotCallable).

(** ** The source: [TaggedError] and the class it returns *)

(** The constructor of [TaggedErrorClass].  [super_call] is [super()];
    the field initialiser [_tag = tag] runs as soon as it returns, before
    the rest of the body. *)
Definition TaggedErrorClass_constructor (super_call : M loc) (cls : loc)
    (tag : string) (args : option payload) : M loc :=
  let! this := super_call in
  run! define_field this "_tag" (VString tag) in
  run! Put this "name" (VString tag) in
  run! match args with
       | Some a => Object_assign this a
       | None => ret tt
       end in
  let! P := Get cls "prototype" in
  run! Object_setPrototypeOf this P in
  ret this.

(** [[Construct]] of a function object [F] with the given [new.target]. *)
Fixpoint construct (fuel : nat) (F : loc) (args : option payload)
    (new_target : loc) : M loc :=
  fun h =>
    match fuel with
    | 0 => Stuck
    | S f =>
        match h !! F with
        | None => Stuck
        | Some fo =>
            let super_call (a : option payload) : M loc :=
              match proto fo with
              | Some p => construct f p a new_target
              | None => throw TypeError
              end in
            match call fo with
            | NotCallable | Builtin => Abrupt TypeError h
            | ErrorCtor =>
                (* [Error] is only ever reached through [super()], with no
                   argument; coercing an object to a message is not modelled. *)
                match args with
                | None => Error_construct new_target h
                | Some _ => Stuck
                end
            | TaggedErrorClass tag =>
                TaggedErrorClass_constructor (super_call None) F tag args h
            | DerivedClass => super_call args h
            end
        end
    end.

(** [new F(args)]. *)
Definition new (F : loc) (args : option payload) : M loc :=
  fun h => construct (length h) F args F h.

(** Evaluation of a class definition [class name extends superclass]: the
    prototype object, then the constructor.  The constructor's [length] is
    its number of formal parameters: one for [constructor(args?)], none for
    the implicit [constructor(...args)] of a derived class. *)
Definition class_prototype_object (pp : option loc) (F : loc)
    (methods : list (string * value)) : object :=
  Obj pp true
      (fold_left (fun ps m => upsert (fst m) (PData (snd m) true) ps)
         methods [("constructor", PData (VObject F) true)])
      NotCallable.

Definition class_constructor_object (name : string) (superclass P : loc)
    (behaviour : callable) : object :=
  Obj (Some superclass) true
      [("length", PData (VNumber (match behaviour with
                                  | TaggedErrorClass _ => 1
                                  | _ => 0
                                  end)) false);
       ("name", PData (VString name) false);
       ("prototype", PData (VObject P) false)]
      behaviour.

Definition define_class (name : string) (superclass : loc) (behaviour : callable)
    (methods : list (string * value)) : M loc :=
  let! pp := Get superclass "prototype" in
  match pp with
  | VObject _ | VNull =>
      fun h =>
        let P := length h in
        let F := S P in
        Normal F
          (h ++ [class_prototype_object
                   match pp with VObject p => Some p | _ => None end F methods;
                 class_constructor_object name superclass P behaviour])
  | _ => throw TypeError
  end.

(** [TaggedError(tag)]: a fresh class on every call, closed over [tag]. *)
Definition TaggedError (tag : string) : M loc :=
  define_class "TaggedErrorClass" Error_ctor (TaggedErrorClass tag) [].

(** [class name extends parent { methods }] with the implicit constructor
    [constructor(...args) { super(...args) }], as the README derives named
    error classes. *)
Definition extend (name : string) (parent : loc)
    (methods : list (string * value)) : M loc :=
  define_class name parent DerivedClass methods.

(** ** A standard realm *)

Definition writable_data (p : property) : bool :=
  match p with PData _ true => true | _ => false end.

Definition plain_props (ps : list (string * property)) : bool :=
  forallb (fun kp => String.eqb (fst kp) "__proto__" || writable_data (snd kp)) ps.

(** The intrinsics are in their initial state: apart from the [__proto__]
    accessor, [Object.prototype] and [Error.prototype] hold writable data
    properties only, [Error.prototype.message] is the empty string, and
    [Error.prototype] is the [prototype] of [Error]. *)
Definition realm_ok (h : heap) : bool :=
  match h !! Object_prototype, h !! Error_prototype, h !! Error_ctor with
  | Some op, Some ep, Some ec =>
      bool_decide (proto op = None) && plain_props (props op)
      && bool_decide (proto ep = Some Object_prototype) && plain_props (props ep)
      && bool_decide (get_own ep "message" = Some (PData (VString EmptyString) true))
      && bool_decide (get_own ep "name" = Some (PData (VString "Error") true))
      && bool_decide (call ec = ErrorCtor)
      && bool_decide (get_own ec "prototype" = Some (PData (VObject Error_prototype) false))
  | _, _, _ => false
  end.

Definition Function_prototype : loc := 3.

Definition builtin_function (name : string) : object :=
  Obj (Some Function_prototype) true
      [("length", PData (VNumber 0) false); ("name", PData (VString name) false)]
      Builtin.

Definition realm0 : heap :=
  [ (* 0 *) Obj None true
       [("constructor", PData (VObject 4) true);
        ("__proto__", PProtoAccessor);
        ("hasOwnProperty", PData (VObject 5) true);
        ("toString", PData (VObject 6) true)] NotCallable;
    (* 1 *) Obj (Some Object_prototype) true
       [("constructor", PData (VObject Error_ctor) true);
        ("name", PData (VString "Error") true);
        ("message", PData (VString EmptyString) true);
        ("toString", PData (VObject 7) true)] NotCallable;
    (* 2 *) Obj (Some Function_prototype) true
       [("length", PData (VNumber 1) false);
        ("name", PData (VString "Error") false);
        ("prototype", PData (VObject Error_prototype) false)] ErrorCtor;
    (* 3 *) Obj (Some Object_prototype) true
       [("length", PData (VNumber 0) false);
        ("name", PData (VString EmptyString) false)] Builtin;
    (* 4 *) Obj (Some Function_prototype) true
       [("length", PData (VNumber 1) false);
        ("name", PData (VString "Object") false);
        ("prototype", PData (VObject Object_prototype) false)] Builtin;
    (* 5 *) builtin_function "hasOwnProperty";
    (* 6 *) builtin_function "toString";
    (* 7 *) builtin_function "toString" ].

(** Reading a field and listing the own keys of an object. *)
Definition field (h : heap) (l : loc) (k : string) : option value :=
  ordinary_get (S (length h)) h l k l.

Definition own_keys (h : heap) (l : loc) : option (list string) :=
  match h !! l with Some o => Some (map fst (props o)) | None => None end.

(** The facts [realm_ok] checks, unpacked. *)
Inductive realm_facts (h : heap) : Prop :=
  RealmFacts (op ep ec : object)
    (op_at : h !! Object_prototype = Some op)
    (ep_at : h !! Error_prototype = Some ep)
    (ec_at : h !! Error_ctor = Some ec)
    (op_proto : proto op = None)
    (op_plain : plain_props (props op) = true)
    (ep_proto : proto ep = Some Object_prototype)
    (ep_plain : plain_props (props ep) = true)
    (ep_message : get_own ep "message" = Some (PData (VString EmptyString) true))
    (ep_name : get_own ep "name" = Some (PData (VString "Error") true))
    (ec_call : call ec = ErrorCtor)
    (ec_prototype :
       get_own ec "prototype" = Some (PData (VObject Error_prototype) false)).

(** [settable f h k ol]: within [f] steps the chain from [ol] either ends or
    meets an own writable data property [k]; [[Set]] then writes on the
    receiver. *)
Fixpoint settable (fuel : nat) (h : heap) (k : string) (ol : option loc) : bool :=
  match ol with
  | None => true
  | Some l =>
      match fuel with
      | 0 => false
      | S f =>
          match h !! l with
          | None => false
          | Some o =>
              match get_own o k with
              | Some p => writable_data p
              | None => settable f h k (proto o)
              end
          end
      end
  end.

(** The own properties [Object.assign] leaves behind. *)
Definition assign_props (source : payload) (ps : list (string * property))
  : list (string * property) :=
  fold_left (fun ps kv => upsert (fst kv) (PData (snd kv) true) ps) source ps.

Definition proto_free (source : payload) : bool :=
  negb (existsb (fun kv => String.eqb (fst kv) "__proto__") source).

(** ** Prototype chains *)

Fixpoint chain_from (fuel : nat) (h : heap) (ol : option loc)
  : option (list loc) :=
  match ol with
  | None => Some []
  | Some l =>
      match fuel with
      | 0 => None
      | S f =>
          match h !! l with
          | None => None
          | Some o => option_map (cons l) (chain_from f h (proto o))
          end
      end
  end.

(** The objects [l] inherits from, nearest first. *)
Definition prototype_chain (h : heap) (l : loc) : option (list loc) :=
  match h !! l with
  | Some o => chain_from (length h) h (proto o)
  | None => None
  end.

(** The first own property [k] met along a chain. *)
Fixpoint find_in_chain (h : heap) (c : list loc) (k : string) : option property :=
  match c with
  | [] => None
  | l :: c' =>
      match h !! l with
      | None => None
      | Some o =>
          match get_own o k with
          | Some p => Some p
          | None => find_in_chain h c' k
          end
      end
  end.

Definition base_props (tag : string) : list (string * property) :=
  [("_tag", PData (VString tag) true); ("name", PData (VString tag) true)].

Definition payload_of (args : option payload) : payload :=
  match args with Some a => a | None => [] end.

(** [F] is a class made by [TaggedError tag], with prototype object [P]. *)
Inductive tagged_class (h : heap) (F P : loc) (tag : string) : Prop :=
  TaggedClass (fo po : object)
    (F_at : h !! F = Some fo)
    (F_call : call fo = TaggedErrorClass tag)
    (F_proto : proto fo = Some Error_ctor)
    (F_prototype : get_own fo "prototype" = Some (PData (VObject P) false))
    (P_at : h !! P = Some po)
    (P_proto : proto po = Some Error_prototype)
    (P_props : props po = [("constructor", PData (VObject F) true)]).

(** [NT] can stand as [new.target]: its [prototype] is the object [NP],
    through which every key but [__proto__] can be written. *)
Inductive target_class (h : heap) (NT NP : loc) : Prop :=
  TargetClass (nto : object)
    (NT_at : h !! NT = Some nto)
    (NT_prototype : get_own nto "prototype" = Some (PData (VObject NP) false))
    (NP_settable :
       forall k, k <> "__proto__" -> settable 4 h k (Some NP) = true).

Definition own_property (h : heap) (l : loc) (k : string) : option property :=
  match h !! l with Some o => get_own o k | None => None end.

(** ** Client programs *)

(** [const C = TaggedError(L); const e = new C(args)]. *)
Definition make_error (L : string) (args : option payload) : M (loc * loc) :=
  let! C := TaggedError L in
  let! e := new C args in
  ret (C, e).


(** [class name extends TaggedError(L) { methods }], then [new name(args)]. *)
Definition make_derived (L name : string) (methods : list (string * value))
    (args : option payload) : M (loc * loc * loc) :=
  let! C := TaggedError L in
  let! D := extend name C methods in
  let! e := new D args in
  ret (C, D, e).


(** ** Properties of client programs *)

(** [make_error L args] returns normally with a class, an instance and a
    heap that satisfy [post]. *)
Definition produces (h : heap) (L : string) (args : option payload)
    (post : loc -> loc -> heap -> Prop) : Prop :=
  exists C e h', make_error L args h = Normal (C, e) h' /\ post C e h'.

(** An object has one entry per key. *)
Fixpoint nodup_keys (source : payload) : bool :=
  match source with
  | [] => true
  | (k, _) :: rest =>
      match assoc k rest with
      | None => nodup_keys rest
      | Some _ => false
      end
  end.

(** The discriminant of the produced value is the label. *)
Definition discriminant_is_label (h : heap) (L : string) (args : option payload)
  : Prop :=
  produces h L args (fun _ e h' => field h' e "_tag" = Some (VString L)).

(** After construction, the assignment [e.k = v] throws or changes nothing. *)
Definition assignment_ineffective (h : heap) (L : string) (args : option payload)
    (k : string) (v : value) : Prop :=
  produces h L args (fun _ e h' =>
    match Put e k v h' with
    | Normal _ h'' => field h'' e k = field h' e k
    | Abrupt _ _ => True
    | Stuck => False
    end).

(** Every key of the payload reads back as the payload's value, and the
    instance lists no further own key but [_tag] and [name]. *)
Definition payload_exposed (h : heap) (L : string) (source : payload) : Prop :=
  produces h L (Some source) (fun _ e h' =>
    (forall k v, assoc k source = Some v -> field h' e k = Some v) /\
    (exists ks, own_keys h' e = Some ks /\
       forall k, In k ks -> k = "_tag" \/ k = "name" \/ assoc k source <> None)).

Definition ambient_fields : list string := ["name"; "message"; "_tag"].

(** A payload key that names an ambient field replaces that field. *)
Definition collision_overwrites (h : heap) (L : string) (source : payload)
    (k : string) : Prop :=
  forall v, assoc k source = Some v ->
    produces h L (Some source) (fun _ e h' => field h' e k = Some v).




Definition construction_succeeds (h : heap) (L : string) (args : option payload)
  : Prop :=
  produces h L args (fun _ _ _ => True).

(** What [_tag] or [name] holds once the payload is copied: the payload's
    value where the payload names the key, the label otherwise. *)
Definition final_value (L : string) (args : option payload) (k : string) : value :=
  match assoc k (payload_of args) with
  | Some v => v
  | None => VString L
  end.


(** The message is empty while the category name is the label. *)
Definition empty_message_named_by_label (h : heap) (L : string)
    (args : option payload) : Prop :=
  produces h L args (fun _ e h' =>
    field h' e "message" = Some (VString EmptyString) /\
    field h' e "name" = Some (VString L)).

(** What an ambient field holds when the payload does not name it. *)
Definition ambient_value (L k : string) : value :=
  if String.eqb k "message" then VString EmptyString else VString L.

(** ** Heaps for the counterexamples: a standard realm and one more object *)

(** [Object.freeze({ foo: 0 })]. *)
Definition frozen_foo : object :=
  Obj (Some Object_prototype) false [("foo", PData (VNumber 0) false)] NotCallable.

(** An object whose [message] is an accessor: the accessor pair of
    [Object.prototype.__proto__], installed with [Object.defineProperty]. *)
Definition message_accessor : object :=
  Obj (Some Object_prototype) true [("message", PProtoAccessor)] NotCallable.

Definition extra : loc := 8.

(** The heap once [TaggedError tag] has run; [made_heap] adds an instance
    with own properties [ps]. *)
Definition with_class (h : heap) (tag : string) : heap :=
  h ++ [class_prototype_object (Some Error_prototype) (S (length h)) [];
        class_constructor_object "TaggedErrorClass" Error_ctor (length h)
          (TaggedErrorClass tag)].

Definition made_heap (h : heap) (tag : string) (ps : list (string * property))
  : heap :=
  with_class h tag ++ [Obj (Some (length h)) true ps NotCallable].

(** ** Further client programs and observations *)

(** One class, two instances:
    [const C = TaggedError(L); const e1 = new C(args1); const e2 = new C(args2)]. *)
Definition make_pair (L : string) (args1 args2 : option payload)
  : M (loc * loc * loc) :=
  let! C := TaggedError L in
  let! e1 := new C args1 in
  let! e2 := new C args2 in
  ret (C, e1, e2).

(** An object some caller holds and also passes in a payload. *)
Definition request_object : object :=
  Obj (Some Object_prototype) true [("retries", PData (VNumber 0) true)]
      NotCallable.







(** The payload without its [__proto__] entry. *)
Definition drop_proto (source : payload) : payload :=
  List.filter (fun kv => negb (String.eqb (fst kv) "__proto__")) source.

Definition is_object (v : value) : bool :=
  match v with VObject _ => true | _ => false end.

(** The payload has no [__proto__] entry, or one whose value is not an
    object ([null] and the primitives). *)
Definition proto_entry_inert (source : payload) : bool :=
  match assoc "__proto__" source with
  | Some v => negb (is_object v)
  | None => true
  end.

(** [Object.prototype] carries the [__proto__] accessor and
    [Error.prototype] does not shadow it. *)
Definition proto_accessor_ok (h : heap) : bool :=
  match h !! Object_prototype, h !! Error_prototype with
  | Some op, Some ep =>
      bool_decide (get_own op "__proto__" = Some PProtoAccessor)
      && bool_decide (get_own ep "__proto__" = None)
  | _, _ => false
  end.

(** ToString on a primitive, as a template literal applies it.  A
    [VNumber] stands for an integer-valued number; within the safe-integer
    range (magnitude at most 2^53 - 1) it prints as its plain decimal digits.
    Larger numbers, where JavaScript prints the shortest digits that round
    trip and later an exponent, are not modelled, and neither is an object,
    which would call its own [toString]. *)
Definition text_of (v : value) : option string :=
  match v with
  | VUndefined => Some "undefined"
  | VNull => Some "null"
  | VBool true => Some "true"
  | VBool false => Some "false"
  | VNumber z =>
      if (Z.abs z <=? 9007199254740991)%Z then Some (pretty z) else None
  | VString s => Some s
  | VObject _ => None
  end.

Definition to_text (v : value) : M string :=
  fun h => match text_of v with Some s => Normal s h | None => Stuck end.

(** The strict equality [v === s] of a [switch] case on a string. *)
Definition is_string (v : value) (s : string) : bool :=
  match v with VString s' => String.eqb s' s | _ => false end.

(** [handleError] of the README: a [switch] on [error._tag]; the result is
    the line passed to [console.log], if any. *)
Definition handleError (error : loc) : M (option string) :=
  let! tag := Get error "_tag" in
  if is_string tag "ValidationError" then
    let! f := Get error "field" in
    let! v := Get error "value" in
    let! sf := to_text f in
    let! sv := to_text v in
    ret (Some (String.append "Invalid "
                 (String.append sf (String.append ": " sv))))
  else if is_string tag "NetworkError" then
    let! st := Get error "status" in
    let! ep := Get error "endpoint" in
    let! sst := to_text st in
    let! sep := to_text ep in
    ret (Some (String.append "HTTP "
                 (String.append sst (String.append " at " sep))))
  else ret None.

(** The heap once [class name extends C { methods }] has run on
    [with_class h tag], and then with an instance made through it. *)
Definition with_derived (h : heap) (tag name : string)
    (methods : list (string * value)) : heap :=
  with_class h tag
  ++ [class_prototype_object (Some (length h)) (S (S (S (length h)))) methods;
      class_constructor_object name (S (length h)) (S (S (length h)))
        DerivedClass].

(** ** Association lists and the heap as a list *)

Section Assoc.
Context {A : Type}.
Implicit Types (l : list (string * A)) (k : string).

Lemma assoc_upsert_eq k (x : A) l : assoc k (upsert k x l) = Some x.
Proof.
  induction l as [|[k' y] l IH]; simpl.
  - now rewrite String.eqb_refl.
  - destruct (String.eqb k k') eqn:E; simpl.
    + now rewrite String.eqb_refl.
    + now rewrite E.
Qed.

Lemma assoc_upsert_ne k k' (x : A) l :
  k <> k' -> assoc k' (upsert k x l) = assoc k' l.
Proof.
  intros Hne. induction l as [|[k0 y] l IH]; simpl.
  - destruct (String.eqb k' k) eqn:E; [|reflexivity].
    apply String.eqb_eq in E. congruence.
  - destruct (String.eqb k k0) eqn:E; simpl.
    + apply String.eqb_eq in E. subst k0.
      destruct (String.eqb k' k) eqn:E'; [|reflexivity].
      apply String.eqb_eq in E'. congruence.
    + now rewrite IH.
Qed.

Lemma assoc_upsert k k' (x : A) l :
  assoc k' (upsert k x l) = if String.eqb k k' then Some x else assoc k' l.
Proof.
  destruct (String.eqb k k') eqn:E.
  - apply String.eqb_eq in E. subst. apply assoc_upsert_eq.
  - apply String.eqb_neq in E. now apply assoc_upsert_ne.
Qed.

End Assoc.

Lemma snoc_lookup (h : heap) (o : object) : (h ++ [o]) !! length h = Some o.
Proof. now apply list_lookup_middle. Qed.

Lemma snoc_lookup_old (h : heap) (o x : object) (l : loc) :
  h !! l = Some x -> (h ++ [o]) !! l = Some x.
Proof. apply lookup_app_l_Some. Qed.

Lemma snoc_insert (h : heap) (o o' : object) :
  <[length h := o']> (h ++ [o]) = h ++ [o'].
Proof.
  rewrite insert_app_r_alt by lia. now rewrite Nat.sub_diag.
Qed.

(** ** What a standard realm provides *)

Lemma plain_props_assoc ps k :
  plain_props ps = true -> k <> "__proto__" ->
  assoc k ps = None \/ exists v, assoc k ps = Some (PData v true).
Proof.
  intros Hp Hk. induction ps as [|[k' p] ps IH]; simpl in *; [now left|].
  apply andb_prop in Hp as [Hp1 Hp2].
  destruct (String.eqb k k') eqn:E; [|now apply IH].
  apply String.eqb_eq in E. subst k'. right.
  apply orb_prop in Hp1 as [Hp1|Hp1].
  - apply String.eqb_eq in Hp1. contradiction.
  - destruct p as [v [|]|]; try discriminate. now exists v.
Qed.

Lemma realm_ok_facts h : realm_ok h = true -> realm_facts h.
Proof.
  unfold realm_ok. intros H.
  destruct (h !! Object_prototype) as [op|] eqn:E0; [|discriminate].
  destruct (h !! Error_prototype) as [ep|] eqn:E1; [|discriminate].
  destruct (h !! Error_ctor) as [ec|] eqn:E2; [|discriminate].
  repeat (apply andb_prop in H as [H ?]).
  repeat match goal with
         | B : bool_decide _ = true |- _ => apply bool_decide_eq_true in B
         end.
  now apply (RealmFacts h op ep ec).
Qed.

Lemma realm_facts_snoc h t : realm_facts h -> realm_facts (h ++ t).
Proof.
  intros [op ep ec]. apply (RealmFacts (h ++ t) op ep ec);
    try assumption; now apply lookup_app_l_Some.
Qed.

Lemma realm_facts_length h : realm_facts h -> 3 <= length h.
Proof.
  intros [op ep ec ? ? Hec]. apply lookup_lt_Some in Hec.
  unfold Error_ctor in Hec. lia.
Qed.

(** ** Writing through a prototype chain *)

Lemma settable_snoc f h t k ol :
  settable f h k ol = true -> settable f (h ++ t) k ol = true.
Proof.
  revert ol. induction f as [|f IH]; intros [l|]; simpl; try easy.
  destruct (h !! l) as [o|] eqn:E; [|discriminate].
  rewrite (lookup_app_l_Some _ _ _ _ E).
  destruct (get_own o k); [easy|]. apply IH.
Qed.

Lemma settable_step f h k l o :
  h !! l = Some o -> plain_props (props o) = true -> k <> "__proto__" ->
  settable f h k (proto o) = true -> settable (S f) h k (Some l) = true.
Proof.
  intros Hl Hp Hk Hs. simpl. rewrite Hl. unfold get_own.
  destruct (plain_props_assoc _ k Hp Hk) as [-> | [v ->]]; [assumption|reflexivity].
Qed.

Lemma ordinary_set_settable f :
  forall fuel l h k v r,
    settable f h k (Some l) = true -> f <= fuel ->
    ordinary_set fuel l k v r h = set_on_receiver r k v h.
Proof.
  induction f as [|f IH]; intros fuel l h k v r Hs Hle; [discriminate|].
  destruct fuel as [|fuel]; [lia|]. simpl in *.
  destruct (h !! l) as [o|]; [|discriminate].
  destruct (get_own o k) as [[w [|]|]|]; try discriminate; try reflexivity.
  destruct (proto o) as [p|]; [|reflexivity].
  apply IH; [assumption|lia].
Qed.

Lemma plain_props_upsert ps k v :
  plain_props ps = true -> plain_props (upsert k (PData v true) ps) = true.
Proof.
  induction ps as [|[k' p] ps IH]; simpl; intros H.
  - now rewrite orb_true_r.
  - apply andb_prop in H as [H1 H2].
    destruct (String.eqb k k'); simpl.
    + now rewrite orb_true_r, H2.
    + now rewrite H1, IH.
Qed.

(** The chain below an instance of a factory-made class. *)
Lemma settable_realm h k :
  realm_facts h -> k <> "__proto__" ->
  settable 2 h k (Some Error_prototype) = true.
Proof.
  intros [op ep ec] Hk.
  apply (settable_step _ _ _ _ ep); try assumption.
  rewrite ep_proto.
  apply (settable_step _ _ _ _ op); try assumption.
  now rewrite op_proto.
Qed.

(** ** Writes on a fresh instance: the object at the end of the heap *)

Lemma set_on_receiver_instance h o k v :
  extensible o = true -> plain_props (props o) = true -> k <> "__proto__" ->
  set_on_receiver (length h) k v (h ++ [o])
  = Normal true (h ++ [set_props o (upsert k (PData v true) (props o))]).
Proof.
  intros He Hp Hk. unfold set_on_receiver. rewrite snoc_lookup.
  unfold get_own.
  destruct (plain_props_assoc _ k Hp Hk) as [-> | [w ->]];
    rewrite ?He; now rewrite snoc_insert.
Qed.

Lemma Put_instance f h o k v :
  extensible o = true -> plain_props (props o) = true -> k <> "__proto__" ->
  settable f h k (proto o) = true -> f <= S (length h) ->
  Put (length h) k v (h ++ [o])
  = Normal tt (h ++ [set_props o (upsert k (PData v true) (props o))]).
Proof.
  intros He Hp Hk Hs Hf. unfold Put, bind.
  assert (ordinary_set (S (length (h ++ [o]))) (length h) k v (length h) (h ++ [o])
          = set_on_receiver (length h) k v (h ++ [o])) as ->.
  { simpl. rewrite snoc_lookup. unfold get_own.
    destruct (plain_props_assoc _ k Hp Hk) as [-> | [w ->]]; [|reflexivity].
    destruct (proto o) as [p|] eqn:Ep; [|reflexivity].
    apply (ordinary_set_settable f).
    - now apply settable_snoc.
    - rewrite length_app. simpl. lia. }
  now rewrite set_on_receiver_instance.
Qed.

Lemma proto_free_cons k v source :
  proto_free ((k, v) :: source) = true ->
  k <> "__proto__" /\ proto_free source = true.
Proof.
  unfold proto_free. simpl. intros H. apply negb_true_iff in H.
  apply orb_false_elim in H as [H1 H2]. split.
  - now apply String.eqb_neq.
  - now rewrite H2.
Qed.

Lemma Object_assign_instance f source :
  forall h o,
    extensible o = true -> plain_props (props o) = true ->
    (forall k, k <> "__proto__" -> settable f h k (proto o) = true) ->
    f <= S (length h) -> proto_free source = true ->
    Object_assign (length h) source (h ++ [o])
    = Normal tt (h ++ [set_props o (assign_props source (props o))]).
Proof.
  induction source as [|[k v] source IH]; intros h o He Hp Hs Hf Hfree.
  - simpl. unfold ret. now destruct o.
  - apply proto_free_cons in Hfree as [Hk Hfree].
    simpl. unfold bind at 1.
    rewrite (Put_instance f) by auto.
    rewrite IH; simpl; auto using plain_props_upsert.
Qed.

(** Whatever the chain, a [[Set]] with the instance as receiver touches the
    instance only, and of its own properties only the key written. *)
Lemma ordinary_set_prototype_of_frame h o V b h2 :
  ordinary_set_prototype_of (length h) V (h ++ [o]) = Normal b h2 ->
  exists o', h2 = h ++ [o'] /\ extensible o' = extensible o
             /\ call o' = call o /\ props o' = props o.
Proof.
  unfold ordinary_set_prototype_of. rewrite snoc_lookup.
  destruct (decide (proto o = V)).
  { intros [= <- <-]. now exists o. }
  destruct (negb (extensible o)).
  { intros [= <- <-]. now exists o. }
  destruct (reaches _ _ V (length h)) as [[|]|]; intros [= <- <-].
  - now exists o.
  - rewrite snoc_insert. now exists (set_proto o V).
Qed.

Lemma proto_setter_frame h o v b h2 :
  proto_setter (length h) v (h ++ [o]) = Normal b h2 ->
  exists o', h2 = h ++ [o'] /\ extensible o' = extensible o
             /\ call o' = call o /\ props o' = props o.
Proof.
  destruct v; simpl; unfold bind, ret, throw;
    try (intros [= <- <-]; now exists o).
  - destruct (ordinary_set_prototype_of _ None _) as [[|] h'| |] eqn:E;
      try discriminate.
    intros [= <- <-]. eapply ordinary_set_prototype_of_frame; eassumption.
  - destruct (ordinary_set_prototype_of _ (Some l) _) as [[|] h'| |] eqn:E;
      try discriminate.
    intros [= <- <-]. eapply ordinary_set_prototype_of_frame; eassumption.
Qed.

Lemma set_on_receiver_frame h o k v b h2 :
  set_on_receiver (length h) k v (h ++ [o]) = Normal b h2 ->
  exists o', h2 = h ++ [o'] /\ extensible o' = extensible o
             /\ call o' = call o
             /\ forall k', k' <> k -> get_own o' k' = get_own o k'.
Proof.
  unfold set_on_receiver. rewrite snoc_lookup.
  assert (forall h2', h2' = h ++ [o] -> exists o', h2' = h ++ [o']
            /\ extensible o' = extensible o /\ call o' = call o
            /\ forall k', k' <> k -> get_own o' k' = get_own o k') as Hsame
    by (intros ? ->; now exists o).
  assert (exists o', <[length h := set_props o (upsert k (PData v true) (props o))]>
                       (h ++ [o]) = h ++ [o']
            /\ extensible o' = extensible o /\ call o' = call o
            /\ forall k', k' <> k -> get_own o' k' = get_own o k') as Hupd.
  { rewrite snoc_insert. eexists. split; [reflexivity|]. repeat split.
    intros k' Hk'. unfold get_own. simpl. apply assoc_upsert_ne. congruence. }
  destruct (get_own o k) as [[w [|]|]|]; [| | |destruct (extensible o)];
    intros [= <- <-]; auto.
Qed.

Lemma ordinary_set_frame fuel :
  forall l h o k v b h2,
    ordinary_set fuel l k v (length h) (h ++ [o]) = Normal b h2 ->
    exists o', h2 = h ++ [o'] /\ extensible o' = extensible o
               /\ call o' = call o
               /\ forall k', k' <> k -> get_own o' k' = get_own o k'.
Proof.
  induction fuel as [|fuel IH]; intros l h o k v b h2; simpl; [discriminate|].
  destruct ((h ++ [o]) !! l) as [x|]; [|discriminate].
  destruct (get_own x k) as [[w [|]|]|].
  - apply set_on_receiver_frame.
  - intros [= <- <-]. now exists o.
  - intros H. apply proto_setter_frame in H as (o' & -> & He & Hc & Hp).
    exists o'. repeat split; auto. intros. unfold get_own. now rewrite Hp.
  - destruct (proto x); [apply IH | apply set_on_receiver_frame].
Qed.

Lemma Put_frame h o k v h2 :
  Put (length h) k v (h ++ [o]) = Normal tt h2 ->
  exists o', h2 = h ++ [o'] /\ extensible o' = extensible o
             /\ call o' = call o
             /\ forall k', k' <> k -> get_own o' k' = get_own o k'.
Proof.
  unfold Put, bind, ret, throw.
  destruct (ordinary_set _ _ _ _ _ _) as [[|] h'| |] eqn:E; try discriminate.
  intros [= <-]. eapply ordinary_set_frame; eassumption.
Qed.

Lemma Object_assign_frame source :
  forall h o h2,
    Object_assign (length h) source (h ++ [o]) = Normal tt h2 ->
    exists o', h2 = h ++ [o'] /\ extensible o' = extensible o
               /\ call o' = call o
               /\ forall k, assoc k source = None -> get_own o' k = get_own o k.
Proof.
  induction source as [|[k v] source IH]; intros h o h2; simpl.
  - intros [= <-]. now exists o.
  - unfold bind at 1.
    destruct (Put _ k v _) as [[] h1| |] eqn:E; try discriminate.
    apply Put_frame in E as (o1 & -> & He1 & Hc1 & Hp1).
    intros H. apply IH in H as (o2 & -> & He2 & Hc2 & Hp2).
    exists o2. repeat split; try congruence.
    intros k' Hk'. destruct (String.eqb k' k) eqn:Ek; [discriminate|].
    apply String.eqb_neq in Ek. rewrite Hp2 by assumption. now apply Hp1.
Qed.

(** ** Prototype chains: lemmas *)

Lemma chain_from_snoc f h t ol c :
  chain_from f h ol = Some c -> chain_from f (h ++ t) ol = Some c.
Proof.
  revert ol c. induction f as [|f IH]; intros [l|] c; simpl; try easy.
  destruct (h !! l) as [o|] eqn:E; [|discriminate].
  rewrite (lookup_app_l_Some _ _ _ _ E).
  destruct (chain_from f h (proto o)) as [c'|] eqn:Ec; [|discriminate].
  now rewrite (IH _ _ Ec).
Qed.

Lemma chain_from_mono f :
  forall f' h ol c,
    chain_from f h ol = Some c -> f <= f' -> chain_from f' h ol = Some c.
Proof.
  induction f as [|f IH]; intros f' h [l|] c H Hle;
    try (destruct f'; exact H); try discriminate.
  destruct f' as [|f']; [lia|]. simpl in *.
  destruct (h !! l) as [o|]; [|discriminate].
  destruct (chain_from f h (proto o)) as [c'|] eqn:Ec; [|discriminate].
  rewrite (IH f' _ _ _ Ec) by lia. assumption.
Qed.

Lemma reaches_chain f :
  forall fuel h ol c t,
    chain_from f h ol = Some c -> f <= fuel ->
    reaches fuel h ol t = Some (existsb (fun l => Nat.eqb l t) c).
Proof.
  induction f as [|f IH]; intros fuel h [l|] c t; simpl;
    try discriminate; try (intros [= <-] _; now destruct fuel).
  intros H Hle. destruct fuel as [|fuel]; [lia|]. simpl.
  destruct (h !! l) as [o|]; [|discriminate].
  destruct (chain_from f h (proto o)) as [c'|] eqn:Ec; [|discriminate].
  injection H as <-. simpl.
  destruct (Nat.eqb l t); [reflexivity|]. simpl. apply IH; [assumption|lia].
Qed.

Lemma ordinary_get_chain f :
  forall fuel h l c k r,
    chain_from f h (Some l) = Some c -> f <= fuel ->
    ordinary_get fuel h l k r
    = match find_in_chain h c k with
      | Some (PData v _) => Some v
      | Some PProtoAccessor =>
          match h !! r with
          | Some x => Some (proto_value (proto x))
          | None => None
          end
      | None => Some VUndefined
      end.
Proof.
  induction f as [|f IH]; intros fuel h l c k r H Hle; [discriminate|].
  destruct fuel as [|fuel]; [lia|]. simpl in *.
  destruct (h !! l) as [o|] eqn:El; [|discriminate].
  destruct (chain_from f h (proto o)) as [c'|] eqn:Ec; [|discriminate].
  injection H as <-. simpl. rewrite El.
  destruct (get_own o k) as [[v w|]|]; try reflexivity.
  destruct (proto o) as [p|].
  - apply IH; [assumption|lia].
  - destruct f; simpl in Ec; injection Ec as <-; reflexivity.
Qed.

Lemma chain_realm h :
  realm_facts h ->
  chain_from 2 h (Some Error_prototype) = Some [Error_prototype; Object_prototype].
Proof.
  intros [op ep ec]. simpl. rewrite ep_at, ep_proto. simpl.
  now rewrite op_at, op_proto.
Qed.

Lemma chain_step f h l o c :
  h !! l = Some o -> chain_from f h (proto o) = Some c ->
  chain_from (S f) h (Some l) = Some (l :: c).
Proof. intros Hl Hc. simpl. now rewrite Hl, Hc. Qed.

(** ** Reading *)

Lemma bind_Normal {A B : Type} (m : M A) (f : A -> M B) h a h' :
  m h = Normal a h' -> bind m f h = f a h'.
Proof. unfold bind. now intros ->. Qed.

Lemma ordinary_get_own fuel h l o k v w r :
  h !! l = Some o -> get_own o k = Some (PData v w) ->
  ordinary_get (S fuel) h l k r = Some v.
Proof. intros Hl Hk. simpl. now rewrite Hl, Hk. Qed.

Lemma Get_own_data h l o k v w :
  h !! l = Some o -> get_own o k = Some (PData v w) -> Get l k h = Normal v h.
Proof. intros Hl Hk. unfold Get. now rewrite (ordinary_get_own _ _ _ _ _ _ _ _ Hl Hk). Qed.

Lemma field_own_data h l o k v w :
  h !! l = Some o -> get_own o k = Some (PData v w) -> field h l k = Some v.
Proof. intros. unfold field. eapply ordinary_get_own; eassumption. Qed.

(** ** Classes on the heap *)

Lemma tagged_class_snoc h t F P tag :
  tagged_class h F P tag -> tagged_class (h ++ t) F P tag.
Proof.
  intros [fo po]. apply (TaggedClass (h ++ t) F P tag fo po);
    try assumption; now apply lookup_app_l_Some.
Qed.

Lemma settable_mono f :
  forall f' h k ol, settable f h k ol = true -> f <= f' -> settable f' h k ol = true.
Proof.
  induction f as [|f IH]; intros f' h k [l|] H Hle;
    try (destruct f'; exact H); try discriminate.
  destruct f' as [|f']; [lia|]. simpl in *.
  destruct (h !! l) as [o|]; [|discriminate].
  destruct (get_own o k); [assumption|]. apply (IH f'); [assumption|lia].
Qed.

Lemma plain_constructor_props F :
  plain_props [("constructor", PData (VObject F) true)] = true.
Proof. reflexivity. Qed.

Lemma settable_tagged h F P tag k :
  realm_facts h -> tagged_class h F P tag -> k <> "__proto__" ->
  settable 3 h k (Some P) = true.
Proof.
  intros Hr [fo po] Hk.
  apply (settable_step _ _ _ _ po); try assumption.
  - rewrite P_props. apply plain_constructor_props.
  - rewrite P_proto. now apply settable_realm.
Qed.

Lemma tagged_class_target h F P tag :
  realm_facts h -> tagged_class h F P tag -> target_class h F P.
Proof.
  intros Hr Hc. pose proof Hc as [fo po].
  apply (TargetClass h F P fo); try assumption.
  intros k Hk. apply (settable_mono 3); [|lia].
  now apply (settable_tagged h F P tag).
Qed.

Lemma chain_tagged h F P tag :
  realm_facts h -> tagged_class h F P tag ->
  chain_from 3 h (Some P) = Some [P; Error_prototype; Object_prototype].
Proof.
  intros Hr [fo po]. apply (chain_step _ _ _ po); [assumption|].
  rewrite P_proto. now apply chain_realm.
Qed.

Lemma tagged_proto_old h F P tag :
  tagged_class h F P tag -> P < length h.
Proof. intros [fo po]. now apply lookup_lt_Some in P_at. Qed.

(** ** The constructor, step by step *)

Lemma setPrototypeOf_instance h F P tag o :
  realm_facts h -> tagged_class h F P tag -> extensible o = true ->
  Object_setPrototypeOf (length h) (VObject P) (h ++ [o])
  = Normal tt (h ++ [set_proto o (Some P)]).
Proof.
  intros Hr Hc He. unfold Object_setPrototypeOf, bind, ordinary_set_prototype_of.
  rewrite snoc_lookup.
  destruct (decide (proto o = Some P)) as [Hp|Hp].
  { unfold ret. destruct o; simpl in *. now subst. }
  rewrite He. simpl negb. cbv iota.
  pose proof (realm_facts_length _ Hr) as Hlen.
  pose proof (tagged_proto_old _ _ _ _ Hc) as HP.
  rewrite (reaches_chain 3 _ _ _ [P; Error_prototype; Object_prototype]).
  - unfold Error_prototype, Object_prototype. cbn [existsb].
    destruct (Nat.eqb_spec P (length h)); [lia|].
    destruct (Nat.eqb_spec 1 (length h)); [lia|].
    destruct (Nat.eqb_spec 0 (length h)); [lia|].
    cbn [orb]. now rewrite snoc_insert.
  - apply chain_from_snoc. eapply chain_tagged; eassumption.
  - rewrite length_app. simpl. lia.
Qed.

Lemma constructor_start f h F P tag NT NP args :
  realm_facts h -> tagged_class h F P tag -> target_class h NT NP ->
  construct (S (S f)) F args NT h
  = (run! match args with
          | Some a => Object_assign (length h) a
          | None => ret tt
          end in
     let! P' := Get F "prototype" in
     run! Object_setPrototypeOf (length h) P' in
     ret (length h))
      (h ++ [Obj (Some NP) true (base_props tag) NotCallable]).
Proof.
  intros Hr Hc Ht. pose proof Hr as [op ep ec]. pose proof Hc as [fo po].
  destruct Ht as [nto].
  pose proof (realm_facts_length _ Hr) as Hlen.
  cbn [construct]. rewrite F_at, F_call, F_proto.
  unfold TaggedErrorClass_constructor.
  erewrite bind_Normal; cycle 1.
  { cbn [construct]. rewrite ec_at, ec_call. unfold Error_construct.
    erewrite bind_Normal by (eapply Get_own_data; eassumption).
    reflexivity. }
  erewrite bind_Normal; cycle 1.
  { unfold define_field. rewrite snoc_lookup. simpl. now rewrite snoc_insert. }
  erewrite bind_Normal; cycle 1.
  { apply (Put_instance 4); try reflexivity; try discriminate.
    - simpl proto. now apply NP_settable.
    - lia. }
  reflexivity.
Qed.

(** With no [__proto__] key in the payload the constructor returns, and the
    instance is known in full. *)
Lemma constructor_total f h F P tag NT NP args :
  realm_facts h -> tagged_class h F P tag -> target_class h NT NP ->
  proto_free (payload_of args) = true ->
  construct (S (S f)) F args NT h
  = Normal (length h)
      (h ++ [Obj (Some P) true (assign_props (payload_of args) (base_props tag))
                 NotCallable]).
Proof.
  intros Hr Hc Ht Hfree. rewrite (constructor_start f h F P tag NT NP) by assumption.
  pose proof Hc as [fo po]. pose proof Ht as [nto].
  pose proof (realm_facts_length _ Hr) as Hlen.
  erewrite bind_Normal; cycle 1.
  { instantiate (1 := h ++ [Obj (Some NP) true
                              (assign_props (payload_of args) (base_props tag))
                              NotCallable]).
    instantiate (1 := tt).
    destruct args as [a|]; [|reflexivity].
    now rewrite (Object_assign_instance 4) by (auto; simpl; lia). }
  erewrite bind_Normal; cycle 1.
  { eapply Get_own_data; [apply snoc_lookup_old|]; eassumption. }
  erewrite bind_Normal; cycle 1.
  { now apply (setPrototypeOf_instance h F P tag). }
  reflexivity.
Qed.

(** Whatever the payload, if the constructor returns then the instance is a
    new extensible object whose prototype is the class's own, and every own
    property the payload does not name is as the first two steps left it. *)
Lemma constructor_partial f h F P tag NT NP args e h' :
  realm_facts h -> tagged_class h F P tag -> target_class h NT NP ->
  construct (S (S f)) F args NT h = Normal e h' ->
  e = length h /\
  exists ps,
    h' = h ++ [Obj (Some P) true ps NotCallable] /\
    forall k, assoc k (payload_of args) = None -> assoc k ps = assoc k (base_props tag).
Proof.
  intros Hr Hc Ht. rewrite (constructor_start f h F P tag NT NP) by assumption.
  pose proof Hc as [fo po].
  set (o0 := Obj (Some NP) true (base_props tag) NotCallable).
  assert (forall h1,
            (exists o1, h1 = h ++ [o1] /\ extensible o1 = true
               /\ call o1 = NotCallable
               /\ forall k, assoc k (payload_of args) = None ->
                    get_own o1 k = assoc k (base_props tag)) ->
            (let! P' := Get F "prototype" in
             run! Object_setPrototypeOf (length h) P' in
             ret (length h)) h1 = Normal e h' ->
            e = length h /\
            exists ps,
              h' = h ++ [Obj (Some P) true ps NotCallable] /\
              forall k, assoc k (payload_of args) = None ->
                        assoc k ps = assoc k (base_props tag)) as Hrest.
  { intros h1 (o1 & -> & He & Hcall & Hown).
    erewrite bind_Normal; cycle 1.
    { eapply Get_own_data; [apply snoc_lookup_old|]; eassumption. }
    erewrite bind_Normal; cycle 1.
    { now apply (setPrototypeOf_instance h F P tag). }
    intros [= <- <-]. split; [reflexivity|].
    exists (props o1). split; [|exact Hown].
    destruct o1; simpl in *. now subst. }
  destruct args as [a|]; unfold bind at 1.
  - destruct (Object_assign (length h) a (h ++ [o0])) as [[] h1| |] eqn:E;
      try discriminate.
    apply Hrest.
    apply Object_assign_frame in E as (o1 & -> & He & Hcall & Hown).
    now exists o1.
  - unfold ret at 1. apply Hrest. exists o0. repeat split.
Qed.

(** ** Class definitions *)

Lemma define_class_run name sup b methods h so pp w :
  h !! sup = Some so -> get_own so "prototype" = Some (PData (VObject pp) w) ->
  define_class name sup b methods h
  = Normal (S (length h))
      (h ++ [class_prototype_object (Some pp) (S (length h)) methods;
             class_constructor_object name sup (length h) b]).
Proof.
  intros Hs Hp. unfold define_class.
  now rewrite (bind_Normal _ _ _ _ _ (Get_own_data _ _ _ _ _ _ Hs Hp)).
Qed.

Lemma lookup_first_new (h : heap) (a b : object) :
  (h ++ [a; b]) !! length h = Some a.
Proof. now apply list_lookup_middle. Qed.

Lemma lookup_second_new (h : heap) (a b : object) :
  (h ++ [a; b]) !! S (length h) = Some b.
Proof.
  change (h ++ [a; b]) with (h ++ [a] ++ [b]). rewrite app_assoc.
  apply list_lookup_middle. rewrite length_app. simpl. lia.
Qed.

Lemma TaggedError_run tag h :
  realm_facts h ->
  TaggedError tag h
  = Normal (S (length h))
      (h ++ [class_prototype_object (Some Error_prototype) (S (length h)) [];
             class_constructor_object "TaggedErrorClass" Error_ctor (length h)
               (TaggedErrorClass tag)]).
Proof.
  intros [op ep ec]. unfold TaggedError.
  now apply (define_class_run _ _ _ _ _ ec _ false).
Qed.

Lemma TaggedError_class tag h :
  tagged_class
    (h ++ [class_prototype_object (Some Error_prototype) (S (length h)) [];
           class_constructor_object "TaggedErrorClass" Error_ctor (length h)
             (TaggedErrorClass tag)])
    (S (length h)) (length h) tag.
Proof.
  eapply TaggedClass;
    [apply lookup_second_new | | | | apply lookup_first_new | | ]; reflexivity.
Qed.

Lemma new_run h F args :
  2 <= length h -> exists f, new F args h = construct (S (S f)) F args F h.
Proof.
  intros Hlen. unfold new. destruct (length h) as [|[|f]]; try lia. now exists f.
Qed.

Lemma with_class_length h tag : length (with_class h tag) = S (S (length h)).
Proof. unfold with_class. rewrite length_app. simpl. lia. Qed.

Lemma with_class_realm h tag : realm_facts h -> realm_facts (with_class h tag).
Proof. apply realm_facts_snoc. Qed.

Lemma with_class_old h tag l o :
  h !! l = Some o -> with_class h tag !! l = Some o.
Proof. apply lookup_app_l_Some. Qed.

(** ** One factory call, one construction *)

Lemma make_error_total L args h :
  realm_ok h = true -> proto_free (payload_of args) = true ->
  make_error L args h
  = Normal (S (length h), S (S (length h)))
      (made_heap h L (assign_props (payload_of args) (base_props L))).
Proof.
  intros Hr Hfree. apply realm_ok_facts in Hr. unfold make_error, made_heap.
  rewrite (bind_Normal _ _ _ _ _ (TaggedError_run L h Hr)).
  fold (with_class h L).
  pose proof (with_class_realm h L Hr) as Hr'.
  pose proof (TaggedError_class L h) as Hc. fold (with_class h L) in Hc.
  destruct (new_run (with_class h L) (S (length h)) args) as [f Hf].
  { rewrite with_class_length. lia. }
  unfold bind. rewrite Hf.
  rewrite (constructor_total f _ _ (length h) L _ (length h))
    by eauto using tagged_class_target.
  now rewrite with_class_length.
Qed.

(** ** Observing an instance *)

Section Instance.
Variables (h : heap) (F P e : loc) (tag : string) (ps : list (string * property)).
Hypothesis Hrealm : realm_facts h.
Hypothesis Hclass : tagged_class h F P tag.
Hypothesis He : h !! e = Some (Obj (Some P) true ps NotCallable).

Lemma instance_chain :
  chain_from 4 h (Some e) = Some [e; P; Error_prototype; Object_prototype].
Proof.
  eapply chain_step; [exact He|]. simpl proto. eapply chain_tagged; eassumption.
Qed.

Lemma instance_prototype_chain :
  prototype_chain h e = Some [P; Error_prototype; Object_prototype].
Proof.
  unfold prototype_chain. rewrite He. simpl proto.
  apply (chain_from_mono 3); [eapply chain_tagged; eassumption|].
  now apply realm_facts_length.
Qed.

Lemma instance_field_inherited k :
  assoc k ps = None ->
  field h e k
  = match find_in_chain h [P; Error_prototype; Object_prototype] k with
    | Some (PData v _) => Some v
    | Some PProtoAccessor => Some (VObject P)
    | None => Some VUndefined
    end.
Proof.
  intros Hk. unfold field.
  rewrite (ordinary_get_chain 4 _ _ _ _ _ _ instance_chain).
  - simpl. rewrite He. unfold get_own at 1. simpl props. rewrite Hk.
    reflexivity.
  - pose proof (realm_facts_length _ Hrealm). lia.
Qed.

Lemma instance_message :
  assoc "message" ps = None -> field h e "message" = Some (VString EmptyString).
Proof.
  intros Hk. rewrite instance_field_inherited by assumption.
  destruct Hrealm as [op ep ec]. destruct Hclass as [fo po].
  simpl. rewrite P_at. unfold get_own at 1. rewrite P_props. simpl.
  rewrite ep_at. now rewrite ep_message.
Qed.

Lemma instance_undefined k :
  assoc k ps = None -> k <> "constructor" ->
  own_property h Error_prototype k = None ->
  own_property h Object_prototype k = None ->
  field h e k = Some VUndefined.
Proof.
  intros Hk Hc H1 H0. rewrite instance_field_inherited by assumption.
  destruct Hrealm as [op ep ec]. destruct Hclass as [fo po].
  unfold own_property in *. rewrite ep_at in H1. rewrite op_at in H0.
  simpl. rewrite P_at. unfold get_own at 1. rewrite P_props. simpl.
  apply String.eqb_neq in Hc. rewrite Hc.
  rewrite ep_at, H1, op_at, H0. reflexivity.
Qed.

Lemma instance_of_class C co Q w :
  h !! C = Some co -> call co <> NotCallable ->
  get_own co "prototype" = Some (PData (VObject Q) w) ->
  instance_of (VObject e) C h
  = Normal (existsb (fun l => Nat.eqb l Q) [P; Error_prototype; Object_prototype]) h.
Proof.
  intros HC Hcall HQ. unfold instance_of. rewrite HC.
  destruct (call co) eqn:Ecall; try congruence;
    rewrite (bind_Normal _ _ _ _ _ (Get_own_data _ _ _ _ _ _ HC HQ));
    rewrite He; simpl proto;
    rewrite (reaches_chain 3 _ _ _ [P; Error_prototype; Object_prototype]);
    try reflexivity;
    try (eapply chain_tagged; eassumption);
    now apply realm_facts_length.
Qed.

Lemma instance_of_own_class :
  instance_of (VObject e) F h = Normal true h.
Proof.
  destruct Hclass as [fo po].
  rewrite (instance_of_class F fo P false) by (congruence || assumption).
  simpl. now rewrite Nat.eqb_refl.
Qed.

End Instance.

(** ** What [Object.assign] leaves on the instance *)

Lemma assign_props_other source :
  forall ps k, assoc k source = None -> assoc k (assign_props source ps) = assoc k ps.
Proof.
  induction source as [|[k0 v0] source IH]; intros ps k; simpl; [reflexivity|].
  destruct (String.eqb k k0) eqn:E; [discriminate|]. intros H.
  unfold assign_props in *. simpl. rewrite IH by assumption.
  apply assoc_upsert_ne. intros ->. now rewrite String.eqb_refl in E.
Qed.

Lemma assign_props_lookup source :
  forall ps k v,
    nodup_keys source = true -> assoc k source = Some v ->
    assoc k (assign_props source ps) = Some (PData v true).
Proof.
  induction source as [|[k0 v0] source IH]; intros ps k v; simpl; [discriminate|].
  destruct (assoc k0 source) eqn:E0; [discriminate|]. intros Hnd.
  unfold assign_props in *. simpl.
  destruct (String.eqb k k0) eqn:E.
  - apply String.eqb_eq in E. subst k0. intros [= ->].
    fold (assign_props source (upsert k (PData v true) ps)).
    rewrite assign_props_other by assumption. apply assoc_upsert_eq.
  - now apply IH.
Qed.

Lemma assign_props_plain source :
  forall ps, plain_props ps = true -> plain_props (assign_props source ps) = true.
Proof.
  induction source as [|[k v] source IH]; intros ps Hp; [assumption|].
  unfold assign_props in *. simpl. apply IH. now apply plain_props_upsert.
Qed.

(** ** The heap a construction leaves behind *)

Section Made.
Variables (h : heap) (L : string) (ps : list (string * property)).
Hypothesis Hrealm : realm_facts h.

Lemma made_realm : realm_facts (made_heap h L ps).
Proof. apply realm_facts_snoc. now apply with_class_realm. Qed.

Lemma made_class : tagged_class (made_heap h L ps) (S (length h)) (length h) L.
Proof. apply tagged_class_snoc. apply TaggedError_class. Qed.

Lemma made_instance :
  made_heap h L ps !! S (S (length h))
  = Some (Obj (Some (length h)) true ps NotCallable).
Proof. unfold made_heap. rewrite <- (with_class_length h L). apply snoc_lookup. Qed.

Lemma made_old l o : h !! l = Some o -> made_heap h L ps !! l = Some o.
Proof.
  intros H. unfold made_heap. apply lookup_app_l_Some. now apply with_class_old.
Qed.
End Made.

Lemma produces_intro h L args (post : loc -> loc -> heap -> Prop) :
  realm_ok h = true -> proto_free (payload_of args) = true ->
  post (S (length h)) (S (S (length h)))
    (made_heap h L (assign_props (payload_of args) (base_props L))) ->
  produces h L args post.
Proof.
  intros Hr Hfree Hpost. do 3 eexists. split; [|exact Hpost].
  now apply make_error_total.
Qed.

Lemma proto_free_assoc source :
  proto_free source = true -> assoc "__proto__" source = None.
Proof.
  induction source as [|[k v] source IH]; [reflexivity|]. intros H.
  apply proto_free_cons in H as [Hk H]. cbn [assoc].
  destruct (String.eqb "__proto__" k) eqn:E; [|now apply IH].
  apply String.eqb_eq in E. congruence.
Qed.

Lemma Put_made h L ps k v :
  realm_facts h -> plain_props ps = true -> k <> "__proto__" ->
  Put (S (S (length h))) k v (made_heap h L ps)
  = Normal tt (made_heap h L (upsert k (PData v true) ps)).
Proof.
  intros Hr Hp Hk. unfold made_heap. rewrite <- (with_class_length h L).
  rewrite (Put_instance 3); try reflexivity; try assumption.
  - apply (settable_tagged _ (S (length h)) _ L); try assumption.
    + now apply with_class_realm.
    + apply TaggedError_class.
  - rewrite with_class_length. lia.
Qed.

Lemma instance_of_unrelated h F P tag e ps C co Q w :
  realm_facts h -> tagged_class h F P tag ->
  h !! e = Some (Obj (Some P) true ps NotCallable) ->
  h !! C = Some co -> call co <> NotCallable ->
  get_own co "prototype" = Some (PData (VObject Q) w) ->
  P <> Q -> Error_prototype <> Q -> Object_prototype <> Q ->
  instance_of (VObject e) C h = Normal false h.
Proof.
  intros Hr Hc He HC Hcall HQ H1 H2 H3.
  rewrite (instance_of_class h F P e tag ps Hr Hc He C co Q w) by assumption.
  cbn [existsb]. apply Nat.eqb_neq in H1, H2, H3. now rewrite H1, H2, H3.
Qed.

(** ** [new] on a factory-made class, in any heap that holds it *)

Lemma new_tagged_total h F P tag args :
  realm_facts h -> tagged_class h F P tag ->
  proto_free (payload_of args) = true ->
  new F args h
  = Normal (length h)
      (h ++ [Obj (Some P) true (assign_props (payload_of args) (base_props tag))
                 NotCallable]).
Proof.
  intros Hr Hc Hfree. destruct (new_run h F args) as [f ->].
  { pose proof (realm_facts_length _ Hr). lia. }
  apply (constructor_total f h F P tag F P); eauto using tagged_class_target.
Qed.

Lemma new_tagged_partial h F P tag args e h' :
  realm_facts h -> tagged_class h F P tag ->
  new F args h = Normal e h' ->
  e = length h /\
  exists ps,
    h' = h ++ [Obj (Some P) true ps NotCallable] /\
    forall k, assoc k (payload_of args) = None -> assoc k ps = assoc k (base_props tag).
Proof.
  intros Hr Hc. destruct (new_run h F args) as [f ->].
  { pose proof (realm_facts_length _ Hr). lia. }
  apply (constructor_partial f h F P tag F P); eauto using tagged_class_target.
Qed.

(** ** Derived classes *)

Lemma methods_plain methods :
  forall ps,
    plain_props ps = true ->
    plain_props
      (fold_left (fun ps m => upsert (fst m) (PData (snd m) true) ps) methods ps)
    = true.
Proof.
  induction methods as [|[m v] methods IH]; intros ps Hp; [assumption|].
  simpl. apply IH. now apply plain_props_upsert.
Qed.

Lemma methods_defined methods m :
  forall (ps : list (string * property)),
    In m (map fst methods) \/ assoc m ps <> None ->
    assoc m (fold_left (fun ps m => upsert (fst m) (PData (snd m) true) ps)
               methods ps) <> None.
Proof.
  induction methods as [|[m0 v0] methods IH]; intros ps H.
  - simpl in *. tauto.
  - simpl. apply IH. destruct H as [[<-|H]|H].
    + right. simpl. now rewrite assoc_upsert_eq.
    + now left.
    + right. simpl. rewrite assoc_upsert. now destruct (String.eqb m0 m).
Qed.

(** The heap once [class name extends C { methods }] has run on a heap [h]
    holding the factory-made class [C] with prototype [P]. *)
Lemma extend_run name methods h C P tag :
  tagged_class h C P tag ->
  extend name C methods h
  = Normal (S (length h))
      (h ++ [class_prototype_object (Some P) (S (length h)) methods;
             class_constructor_object name C (length h) DerivedClass]).
Proof.
  intros [fo po]. unfold extend.
  now apply (define_class_run _ _ _ _ _ fo _ false).
Qed.

Lemma derived_target name methods h C P tag :
  realm_facts h -> tagged_class h C P tag ->
  target_class
    (h ++ [class_prototype_object (Some P) (S (length h)) methods;
           class_constructor_object name C (length h) DerivedClass])
    (S (length h)) (length h).
Proof.
  intros Hr Hc.
  eapply TargetClass; [apply lookup_second_new | reflexivity |].
  intros k Hk.
  eapply settable_step; [apply lookup_first_new | | assumption |].
  - apply methods_plain. reflexivity.
  - simpl proto. apply settable_snoc. eapply settable_tagged; eassumption.
Qed.

Lemma construct_derived fuel h D args NT d F :
  h !! D = Some d -> call d = DerivedClass -> proto d = Some F ->
  construct (S fuel) D args NT h = construct fuel F args NT h.
Proof. intros HD Hcall Hp. cbn [construct]. now rewrite HD, Hcall, Hp. Qed.

Lemma new_derived_run name methods h C P args :
  3 <= length h ->
  exists f,
    new (S (length h)) args
      (h ++ [class_prototype_object (Some P) (S (length h)) methods;
             class_constructor_object name C (length h) DerivedClass])
    = construct (S (S f)) C args (S (length h))
        (h ++ [class_prototype_object (Some P) (S (length h)) methods;
               class_constructor_object name C (length h) DerivedClass]).
Proof.
  intros Hlen. unfold new.
  set (h2 := h ++ [class_prototype_object (Some P) (S (length h)) methods;
                   class_constructor_object name C (length h) DerivedClass]).
  assert (exists f, length h2 = S (S (S f))) as [f Hf].
  { exists (length h - 1). unfold h2. rewrite length_app. simpl. lia. }
  rewrite Hf. exists f.
  apply (construct_derived _ _ _ _ _
           (class_constructor_object name C (length h) DerivedClass));
    [apply lookup_second_new | reflexivity | reflexivity].
Qed.

Lemma in_keys_assoc {A : Type} (l : list (string * A)) k :
  In k (map fst l) -> assoc k l <> None.
Proof.
  induction l as [|[k' x] l IH]; simpl; [tauto|].
  intros [->|H]; [now rewrite String.eqb_refl|].
  destruct (String.eqb k k'); [discriminate|]. now apply IH.
Qed.

Lemma assign_props_keys_from L source k :
  In k (map fst (assign_props source (base_props L))) ->
  k = "_tag" \/ k = "name" \/ assoc k source <> None.
Proof.
  intros Hin. apply in_keys_assoc in Hin.
  destruct (assoc k source) eqn:E; [right; right; discriminate|].
  rewrite assign_props_other in Hin by assumption. simpl in Hin.
  destruct (String.eqb k "_tag") eqn:Et; [left; now apply String.eqb_eq|].
  destruct (String.eqb k "name") eqn:En; [right; left; now apply String.eqb_eq|].
  contradiction.
Qed.

Lemma assign_props_final L args k :
  nodup_keys (payload_of args) = true ->
  k = "_tag" \/ k = "name" ->
  assoc k (assign_props (payload_of args) (base_props L))
  = Some (PData (final_value L args k) true).
Proof.
  intros Hnd Hk. unfold final_value.
  destruct (assoc k (payload_of args)) as [v|] eqn:E.
  - now apply assign_props_lookup.
  - rewrite assign_props_other by assumption. now destruct Hk as [-> | ->].
Qed.

(** ** The statements of the specification, one by one *)

(** The heaps used below as concrete inputs are standard realms. *)
Example realm0_ok : realm_ok realm0 = true.
Proof. reflexivity. Qed.

Example realm_with_frozen_ok : realm_ok (realm0 ++ [frozen_foo]) = true.
Proof. reflexivity. Qed.

Example realm_with_accessor_ok : realm_ok (realm0 ++ [message_accessor]) = true.
Proof. reflexivity. Qed.

(** What the constructor does on the inputs that refute a statement. *)
Example tag_key_run :
  produces realm0 "NetworkError" (Some [("_tag", VString "Other")])
    (fun _ e h' => field h' e "_tag" = Some (VString "Other")).
Proof. do 3 eexists. split; vm_compute; reflexivity. Qed.

Example proto_key_run :
  produces realm0 "E" (Some [("__proto__", VNumber 5)])
    (fun C e h' =>
       own_property h' e "__proto__" = None /\
       own_property h' C "prototype" = Some (PData (VObject 8) false) /\
       field h' e "__proto__" = Some (VObject 8)).
Proof. do 3 eexists. split; [vm_compute; reflexivity|]. repeat split. Qed.

Example frozen_prototype_run :
  exists h',
    make_error "E" (Some [("__proto__", VObject extra); ("foo", VNumber 1)])
      (realm0 ++ [frozen_foo])
    = Abrupt TypeError h'.
Proof. eexists. vm_compute. reflexivity. Qed.

Example accessor_prototype_run :
  produces (realm0 ++ [message_accessor]) "E"
    (Some [("__proto__", VObject extra); ("message", VString "boom")])
    (fun _ e h' =>
       own_property h' e "message" = None /\
       field h' e "message" = Some (VString EmptyString)).
Proof. do 3 eexists. split; [vm_compute; reflexivity|]. split; reflexivity. Qed.

Example blank_surface_run :
  produces realm0 "NetworkError"
    (Some [("name", VString EmptyString); ("_tag", VString EmptyString); ("stack", VString EmptyString)])
    (fun _ e h' =>
       field h' e "name" = Some (VString EmptyString) /\
       field h' e "message" = Some (VString EmptyString) /\
       field h' e "_tag" = Some (VString EmptyString) /\
       field h' e "stack" = Some (VString EmptyString)).
Proof. do 3 eexists. split; [vm_compute; reflexivity|]. repeat split. Qed.

Example assignment_run :
  produces realm0 "NetworkError" (Some [("status", VNumber 500)])
    (fun _ e h' =>
       field h' e "status" = Some (VNumber 500) /\
       exists h'',
         Put e "status" (VNumber 0) h' = Normal tt h'' /\
         field h'' e "status" = Some (VNumber 0)).
Proof.
  do 3 eexists. split; [vm_compute; reflexivity|]. split; [reflexivity|].
  eexists. split; vm_compute; reflexivity.
Qed.

(** C1, as the claim states it, fails: a payload with a key [_tag] replaces
    the discriminant. *)
Lemma discriminant_overwritten :
  ~ discriminant_is_label realm0 "NetworkError" (Some [("_tag", VString "Other")]).
Proof.
  intros (C & e & h' & Hrun & Hf).
  vm_compute in Hrun. injection Hrun as <- <- <-.
  vm_compute in Hf. discriminate.
Qed.

(** C1, amended. For no payload and for every payload without a key
    [__proto__], the produced value has an own field [_tag]; it is an
    ordinary writable data property, written by the class-field initialiser
    right after the base construction and before the payload copy, so it
    holds the label when the payload has no key [_tag] and the payload's
    value for [_tag] when it has one. *)
Theorem discriminant_field_value (L : string) (args : option payload) (h : heap) :
  realm_ok h = true ->
  nodup_keys (payload_of args) = true ->
  proto_free (payload_of args) = true ->
  produces h L args (fun _ e h' =>
    own_property h' e "_tag" = Some (PData (final_value L args "_tag") true) /\
    field h' e "_tag" = Some (final_value L args "_tag") /\
    (assoc "_tag" (payload_of args) = None ->
     field h' e "_tag" = Some (VString L)) /\
    (forall v, assoc "_tag" (payload_of args) = Some v ->
     field h' e "_tag" = Some v)).
Proof.
  intros Hr Hnd Hfree. apply produces_intro; [assumption|assumption|].
  set (ps := assign_props (payload_of args) (base_props L)).
  pose proof (made_instance h L ps) as He.
  assert (assoc "_tag" ps = Some (PData (final_value L args "_tag") true)) as Hown
    by (apply assign_props_final; auto).
  assert (field (made_heap h L ps) (S (S (length h))) "_tag"
          = Some (final_value L args "_tag")) as Hfield
    by exact (field_own_data _ _ _ _ _ true He Hown).
  split; [unfold own_property; now rewrite He|].
  split; [exact Hfield|]. unfold final_value in Hfield.
  split; [intros Hn|intros v Hv]; now rewrite ?Hn, ?Hv in Hfield.
Qed.

Lemma discriminant_field_value_witness :
  produces realm0 "NetworkError"
    (Some [("status", VNumber 500); ("_tag", VString "Other")])
    (fun _ e h' =>
       own_property h' e "_tag" = Some (PData (VString "Other") true) /\
       field h' e "_tag" = Some (VString "Other")).
Proof.
  destruct (discriminant_field_value "NetworkError"
              (Some [("status", VNumber 500); ("_tag", VString "Other")])
              realm0 eq_refl eq_refl eq_refl)
    as (C & e & h' & Hrun & Hown & Hfield & _).
  exists C, e, h'. repeat split; assumption.
Defined.

(** C2, as the claim states it, fails: assigning to a payload field after
    construction succeeds and replaces the stored value. *)
Lemma assignment_takes_effect :
  ~ assignment_ineffective realm0 "NetworkError" (Some [("status", VNumber 500)])
      "status" (VNumber 0).
Proof.
  intros (C & e & h' & Hrun & Hf).
  vm_compute in Hrun. injection Hrun as <- <- <-.
  vm_compute in Hf. discriminate.
Qed.

(** C2, amended. Read-only is a matter of the declared types alone.  At run
    time, for no payload and for every payload without a key [__proto__],
    the discriminant and every payload field of the produced value are
    writable data properties, and an assignment [e.k = v] to any key other
    than [__proto__] returns normally and replaces the stored value. *)
Theorem fields_writable_at_run_time (L : string) (args : option payload)
    (k : string) (v : value) (h : heap) :
  realm_ok h = true ->
  nodup_keys (payload_of args) = true ->
  proto_free (payload_of args) = true ->
  k <> "__proto__" ->
  produces h L args (fun _ e h' =>
    own_property h' e "_tag" = Some (PData (final_value L args "_tag") true) /\
    (forall k0 v0, assoc k0 (payload_of args) = Some v0 ->
       own_property h' e k0 = Some (PData v0 true)) /\
    exists h'',
      Put e k v h' = Normal tt h'' /\
      own_property h'' e k = Some (PData v true) /\
      field h'' e k = Some v).
Proof.
  intros Hr Hnd Hfree Hk. pose proof (realm_ok_facts _ Hr) as Hf.
  apply produces_intro; [assumption|assumption|].
  set (ps := assign_props (payload_of args) (base_props L)).
  assert (plain_props ps = true) as Hplain by now apply assign_props_plain.
  split; [|split].
  - unfold own_property. rewrite made_instance. unfold get_own. simpl props.
    apply assign_props_final; auto.
  - intros k0 v0 Hk0. unfold own_property. rewrite made_instance.
    unfold get_own. simpl props. now apply assign_props_lookup.
  - exists (made_heap h L (upsert k (PData v true) ps)).
    pose proof (made_instance h L (upsert k (PData v true) ps)) as He.
    assert (assoc k (upsert k (PData v true) ps) = Some (PData v true)) as Hown
      by apply assoc_upsert_eq.
    repeat split.
    + now apply Put_made.
    + unfold own_property. now rewrite He.
    + eapply field_own_data; [exact He|exact Hown].
Qed.

Lemma fields_writable_at_run_time_witness :
  produces realm0 "NetworkError" (Some [("status", VNumber 500)])
    (fun _ e h' =>
      own_property h' e "status" = Some (PData (VNumber 500) true) /\
      exists h'',
        Put e "status" (VNumber 0) h' = Normal tt h'' /\
        own_property h'' e "status" = Some (PData (VNumber 0) true) /\
        field h'' e "status" = Some (VNumber 0)).
Proof.
  destruct (fields_writable_at_run_time "NetworkError"
              (Some [("status", VNumber 500)]) "status" (VNumber 0) realm0
              eq_refl eq_refl eq_refl)
    as (C & e & h' & Hrun & _ & Hpay & Hput); [discriminate|].
  exists C, e, h'. split; [exact Hrun|]. split; [|exact Hput].
  now apply Hpay.
Defined.

(** C3, as the claim states it, fails: an own key [__proto__] of the payload
    goes to the setter inherited from [Object.prototype], which ignores a
    number, so the key never becomes a field of the value. *)
Lemma proto_key_not_exposed :
  ~ payload_exposed realm0 "E" [("__proto__", VNumber 5)].
Proof.
  intros (C & e & h' & Hrun & Hf & _).
  vm_compute in Hrun. injection Hrun as <- <- <-.
  specialize (Hf "__proto__" (VNumber 5) eq_refl).
  vm_compute in Hf. discriminate.
Qed.

(** C3, amended. For every label and every payload without a key
    [__proto__], the value has, for each key of the payload, an own writable
    field holding the very value passed in; the keys it lists as its own
    (those of [Object.keys]) are keys of the payload, [_tag] or [name]; and
    construction leaves every older object of the heap as it was. *)
Theorem payload_fields_exposed (L : string) (source : payload) (h : heap) :
  realm_ok h = true ->
  nodup_keys source = true ->
  proto_free source = true ->
  produces h L (Some source) (fun _ e h' =>
    (forall k v, assoc k source = Some v ->
       own_property h' e k = Some (PData v true) /\ field h' e k = Some v) /\
    (exists ks, own_keys h' e = Some ks /\
       forall k, In k ks -> k = "_tag" \/ k = "name" \/ assoc k source <> None) /\
    (forall l o, h !! l = Some o -> h' !! l = Some o)).
Proof.
  intros Hr Hnd Hfree. apply produces_intro; [assumption|assumption|].
  simpl payload_of.
  pose proof (made_instance h L (assign_props source (base_props L))) as He.
  repeat split.
  - unfold own_property. rewrite He. unfold get_own. simpl props.
    now apply assign_props_lookup.
  - eapply field_own_data; [exact He|]. unfold get_own. simpl props.
    now apply assign_props_lookup.
  - unfold own_keys. rewrite He. simpl props. eexists. split; [reflexivity|].
    intros k. apply assign_props_keys_from.
  - intros l o. apply made_old.
Qed.

Lemma payload_fields_exposed_witness :
  produces realm0 "NetworkError"
    (Some [("status", VNumber 500); ("endpoint", VString "/api/users")])
    (fun _ e h' =>
      field h' e "status" = Some (VNumber 500) /\
      field h' e "endpoint" = Some (VString "/api/users") /\
      exists ks, own_keys h' e = Some ks /\
        forall k, In k ks ->
          k = "_tag" \/ k = "name" \/
          assoc k [("status", VNumber 500); ("endpoint", VString "/api/users")]
          <> None).
Proof.
  destruct (payload_fields_exposed "NetworkError"
              [("status", VNumber 500); ("endpoint", VString "/api/users")]
              realm0 eq_refl eq_refl eq_refl)
    as (C & e & h' & Hrun & Hget & Hkeys & _).
  exists C, e, h'. split; [exact Hrun|].
  split; [now apply Hget|]. split; [now apply Hget|]. exact Hkeys.
Defined.

(** C4. For every label [L], constructing with no payload yields a value
    whose discriminant [_tag] is [L], whose category name [name] is [L], and
    whose own fields are these two and nothing else. *)
Theorem payloadless_instance (L : string) (h : heap) :
  realm_ok h = true ->
  produces h L None (fun _ e h' =>
    field h' e "_tag" = Some (VString L) /\
    field h' e "name" = Some (VString L) /\
    own_keys h' e = Some ["_tag"; "name"]).
Proof.
  intros Hr. apply produces_intro; [assumption|reflexivity|].
  change (assign_props (payload_of None) (base_props L)) with (base_props L).
  pose proof (made_instance h L (base_props L)) as He.
  repeat split.
  - eapply field_own_data; [exact He|reflexivity].
  - eapply field_own_data; [exact He|reflexivity].
  - unfold own_keys. now rewrite He.
Qed.

Lemma payloadless_instance_witness :
  produces realm0 "InvalidEndpoint" None (fun _ e h' =>
    field h' e "_tag" = Some (VString "InvalidEndpoint") /\
    field h' e "name" = Some (VString "InvalidEndpoint") /\
    own_keys h' e = Some ["_tag"; "name"]).
Proof. apply payloadless_instance. reflexivity. Defined.

(** C5, as the claim states it, fails: when the payload first re-parents the
    instance, through its key [__proto__], to an object with an accessor
    [message], the write of [message] goes to that accessor and the field
    keeps the inherited empty string. *)
Lemma message_not_overwritten :
  ~ collision_overwrites (realm0 ++ [message_accessor]) "E"
      [("__proto__", VObject extra); ("message", VString "boom")] "message".
Proof.
  intros H. destruct (H (VString "boom") eq_refl) as (C & e & h' & Hrun & Hf).
  vm_compute in Hrun. injection Hrun as <- <- <-.
  vm_compute in Hf. discriminate.
Qed.

(** C5, amended. For every label and every payload without a key
    [__proto__]: a payload key naming [name], [message] or [_tag] replaces
    what that field would hold without it (the label, the empty string, the
    label), and construction returns normally. *)
Theorem collision_overwrites_ambient (L : string) (source : payload)
    (k : string) (v : value) (h : heap) :
  realm_ok h = true ->
  nodup_keys source = true ->
  proto_free source = true ->
  In k ambient_fields ->
  assoc k source = Some v ->
  produces h L None (fun _ e h' => field h' e k = Some (ambient_value L k)) /\
  produces h L (Some source) (fun _ e h' =>
    own_property h' e k = Some (PData v true) /\ field h' e k = Some v).
Proof.
  intros Hr Hnd Hfree Hk Hv. pose proof (realm_ok_facts _ Hr) as Hf. split.
  - apply produces_intro; [assumption|reflexivity|].
    change (assign_props (payload_of None) (base_props L)) with (base_props L).
    pose proof (made_instance h L (base_props L)) as He.
    destruct Hk as [<-|[<-|[<-|[]]]].
    + eapply field_own_data; [exact He|reflexivity].
    + apply (instance_message _ (S (length h)) (length h) _ L (base_props L));
        auto using made_realm, made_class.
    + eapply field_own_data; [exact He|reflexivity].
  - apply produces_intro; [assumption|assumption|]. simpl payload_of.
    pose proof (made_instance h L (assign_props source (base_props L))) as He.
    assert (assoc k (assign_props source (base_props L)) = Some (PData v true))
      as Hown by now apply assign_props_lookup.
    split.
    + unfold own_property. now rewrite He.
    + eapply field_own_data; [exact He|exact Hown].
Qed.

Lemma collision_overwrites_ambient_witness :
  produces realm0 "NetworkError" None (fun _ e h' =>
    field h' e "message" = Some (ambient_value "NetworkError" "message")) /\
  produces realm0 "NetworkError"
    (Some [("message", VString "timeout"); ("name", VString "Oops")])
    (fun _ e h' =>
       own_property h' e "message" = Some (PData (VString "timeout") true) /\
       field h' e "message" = Some (VString "timeout")).
Proof.
  apply (collision_overwrites_ambient "NetworkError"
           [("message", VString "timeout"); ("name", VString "Oops")]
           "message" (VString "timeout") realm0);
    try reflexivity.
  simpl. tauto.
Defined.







(** C8, as the claim states it, fails: the payload key [__proto__] re-parents
    the instance to a frozen object during the copy, the next key hits that
    object's read-only property, and [Object.assign] throws a TypeError. *)
Lemma construction_can_throw :
  ~ construction_succeeds (realm0 ++ [frozen_foo]) "E"
      (Some [("__proto__", VObject extra); ("foo", VNumber 1)]).
Proof.
  intros (C & e & h' & Hrun & _). vm_compute in Hrun. discriminate.
Qed.

(** C8, amended. The factory returns a class for every label, and the class
    returns an instance for no payload and for every payload without a key
    [__proto__]. *)
Theorem construction_total (L : string) (args : option payload) (h : heap) :
  realm_ok h = true ->
  proto_free (payload_of args) = true ->
  exists C h1,
    TaggedError L h = Normal C h1 /\
    exists e h', new C args h1 = Normal e h'.
Proof.
  intros Hr Hfree. pose proof (realm_ok_facts _ Hr) as Hf.
  pose proof (make_error_total L args h Hr Hfree) as Hrun.
  unfold make_error in Hrun.
  rewrite (bind_Normal _ _ _ _ _ (TaggedError_run L h Hf)) in Hrun.
  exists (S (length h)). eexists. split; [now apply TaggedError_run|].
  unfold bind in Hrun.
  destruct (new (S (length h)) args _) as [e h'| |]; try discriminate.
  now exists e, h'.
Qed.

Lemma construction_total_witness :
  exists C h1,
    TaggedError "NetworkError" realm0 = Normal C h1 /\
    exists e h',
      new C (Some [("status", VNumber 500); ("endpoint", VString "/api/users")]) h1
      = Normal e h'.
Proof.
  apply (construction_total "NetworkError"
           (Some [("status", VNumber 500); ("endpoint", VString "/api/users")])
           realm0); reflexivity.
Defined.

(** C9, as the claim states it, fails: the message is empty, but the
    category name is not the label when the payload names [name]. *)
Lemma name_not_always_label :
  ~ empty_message_named_by_label realm0 "NetworkError"
      (Some [("name", VString "Oops")]).
Proof.
  intros (C & e & h' & Hrun & _ & Hn).
  vm_compute in Hrun. injection Hrun as <- <- <-.
  vm_compute in Hn. discriminate.
Qed.

(** C9, amended. For no payload and for every payload with neither a key
    [message] nor a key [__proto__], the produced value has no own [message]
    and reads the empty string inherited from [Error.prototype], the base
    error being constructed with no message argument; its category name is
    the label unless the payload names [name], and then it is the payload's
    value. *)
Theorem message_stays_empty (L : string) (args : option payload) (h : heap) :
  realm_ok h = true ->
  nodup_keys (payload_of args) = true ->
  proto_free (payload_of args) = true ->
  assoc "message" (payload_of args) = None ->
  produces h L args (fun _ e h' =>
    own_property h' e "message" = None /\
    field h' e "message" = Some (VString EmptyString) /\
    field h' e "name" = Some (final_value L args "name") /\
    (assoc "name" (payload_of args) = None ->
     field h' e "name" = Some (VString L))).
Proof.
  intros Hr Hnd Hfree Hm. pose proof (realm_ok_facts _ Hr) as Hf.
  apply produces_intro; [assumption|assumption|].
  set (ps := assign_props (payload_of args) (base_props L)).
  pose proof (made_instance h L ps) as He.
  assert (assoc "message" ps = None) as Hmsg
    by (unfold ps; now rewrite assign_props_other).
  assert (field (made_heap h L ps) (S (S (length h))) "name"
          = Some (final_value L args "name")) as Hname.
  { refine (field_own_data _ _ _ _ _ true He _).
    apply assign_props_final; auto. }
  split; [unfold own_property; now rewrite He|].
  split.
  { apply (instance_message _ (S (length h)) (length h) _ L ps);
      auto using made_realm, made_class. }
  split; [exact Hname|].
  intros Hn. unfold final_value in Hname. now rewrite Hn in Hname.
Qed.

Lemma message_stays_empty_witness :
  produces realm0 "NetworkError"
    (Some [("status", VNumber 500); ("endpoint", VString "/api/users")])
    (fun _ e h' =>
       own_property h' e "message" = None /\
       field h' e "message" = Some (VString EmptyString) /\
       field h' e "name" = Some (VString "NetworkError")).
Proof.
  destruct (message_stays_empty "NetworkError"
              (Some [("status", VNumber 500); ("endpoint", VString "/api/users")])
              realm0 eq_refl eq_refl eq_refl eq_refl)
    as (C & e & h' & Hrun & Hown & Hmsg & _ & Hname).
  exists C, e, h'. repeat split; try assumption. now apply Hname.
Defined.

(** C10. When a class extends a factory-made class and an instance is
    created through the subclass, the last step of the inherited constructor
    re-parents the instance to the factory-made class's prototype: the
    subclass prototype is not on the instance's prototype chain, [instanceof]
    against the subclass is false and against the factory-made class true,
    and a member defined on the subclass prototype reads as [undefined] on
    the instance wherever no other object supplies that name. *)
Theorem derived_instance_reparented (L name : string)
    (methods : list (string * value)) (args : option payload) (h : heap) :
  realm_ok h = true ->
  (forall C D e h',
     make_derived L name methods args h = Normal (C, D, e) h' ->
     exists P SP,
       own_property h' C "prototype" = Some (PData (VObject P) false) /\
       own_property h' D "prototype" = Some (PData (VObject SP) false) /\
       prototype_chain h' e = Some [P; Error_prototype; Object_prototype] /\
       ~ In SP [P; Error_prototype; Object_prototype] /\
       instance_of (VObject e) D h' = Normal false h' /\
       instance_of (VObject e) C h' = Normal true h' /\
       forall m, In m (map fst methods) ->
         own_property h' SP m <> None /\
         (assoc m (payload_of args) = None ->
          m <> "_tag" -> m <> "name" -> m <> "constructor" ->
          own_property h' Error_prototype m = None ->
          own_property h' Object_prototype m = None ->
          field h' e m = Some VUndefined)) /\
  (proto_free (payload_of args) = true ->
   exists C D e h', make_derived L name methods args h = Normal (C, D, e) h').
Proof.
  intros Hr. apply realm_ok_facts in Hr.
  pose proof (realm_facts_length _ Hr) as Hlen.
  set (h1 := with_class h L).
  assert (realm_facts h1) as Hr1 by now apply with_class_realm.
  assert (length h1 = S (S (length h))) as Hl1 by apply with_class_length.
  assert (tagged_class h1 (S (length h)) (length h) L) as Hc1
    by apply TaggedError_class.
  set (sp := class_prototype_object (Some (length h)) (S (length h1)) methods).
  set (d := class_constructor_object name (S (length h)) (length h1) DerivedClass).
  set (h2 := h1 ++ [sp; d]).
  assert (realm_facts h2) as Hr2 by now apply realm_facts_snoc.
  assert (tagged_class h2 (S (length h)) (length h) L) as Hc2
    by now apply tagged_class_snoc.
  assert (target_class h2 (S (length h1)) (length h1)) as Ht2
    by now apply (derived_target name methods h1 _ _ L).
  destruct (new_derived_run name methods h1 (S (length h)) (length h) args)
    as [f Hnew]; [lia|]. fold sp d h2 in Hnew.
  unfold make_derived.
  rewrite (bind_Normal _ _ _ _ _ (TaggedError_run L h Hr)). fold (with_class h L).
  fold h1.
  rewrite (bind_Normal _ _ _ _ _ (extend_run name methods h1 _ _ L Hc1)).
  fold sp d h2.
  split.
  - intros C D e h'. unfold bind. rewrite Hnew.
    destruct (construct _ _ _ _ h2) as [e' h3| |] eqn:E; try discriminate.
    apply (constructor_partial f h2 _ (length h) L _ (length h1)) in E
      as (-> & ps & -> & Hps); try assumption.
    intros [= <- <- <-]. subst h'.
    set (i := Obj (Some (length h)) true ps NotCallable).
    set (h3 := h2 ++ [i]).
    assert (realm_facts h3) as Hr3 by now apply realm_facts_snoc.
    assert (tagged_class h3 (S (length h)) (length h) L) as Hc3
      by now apply tagged_class_snoc.
    assert (h3 !! length h2 = Some i) as He by apply snoc_lookup.
    assert (h3 !! S (length h1) = Some d) as Hd
      by (apply snoc_lookup_old, lookup_second_new).
    assert (h3 !! length h1 = Some sp) as Hsp
      by (apply snoc_lookup_old, lookup_first_new).
    exists (length h), (length h1).
    pose proof Hc3 as [fo po F_at F_call ? F_prototype].
    split; [unfold own_property; now rewrite F_at|].
    split; [unfold own_property; now rewrite Hd|].
    split; [eapply instance_prototype_chain; eassumption|].
    split.
    { unfold Error_prototype, Object_prototype. simpl. lia. }
    split.
    { apply (instance_of_unrelated h3 _ _ L _ ps _ d (length h1) false Hr3 Hc3);
        try assumption; try reflexivity; try discriminate;
        unfold Error_prototype, Object_prototype; lia. }
    split; [eapply instance_of_own_class; eassumption|].
    intros m Hm. split.
    + unfold own_property. rewrite Hsp. unfold get_own, sp. simpl props.
      apply methods_defined. now left.
    + intros Hargs Ht Hn Hcn H1 H0.
      apply (instance_undefined h3 (S (length h)) (length h) _ L ps);
        try assumption.
      rewrite (Hps m Hargs). simpl.
      apply String.eqb_neq in Ht, Hn. now rewrite Ht, Hn.
  - intros Hfree. exists (S (length h)), (S (length h1)).
    unfold bind. rewrite Hnew.
    rewrite (constructor_total f h2 _ (length h) L _ (length h1)) by assumption.
    now do 2 eexists.
Qed.

Lemma derived_instance_reparented_witness :
  exists C D e h',
    make_derived "NetworkError" "NetworkError" [("describe", VObject 5)]
      (Some [("status", VNumber 500)]) realm0
    = Normal (C, D, e) h' /\
    instance_of (VObject e) D h' = Normal false h' /\
    instance_of (VObject e) C h' = Normal true h' /\
    field h' e "describe" = Some VUndefined.
Proof.
  destruct (derived_instance_reparented "NetworkError" "NetworkError"
              [("describe", VObject 5)] (Some [("status", VNumber 500)])
              realm0 eq_refl)
    as [Hall Hex].
  destruct (Hex eq_refl) as (C & D & e & h' & Hrun).
  destruct (Hall _ _ _ _ Hrun) as (P & SP & HP & _ & _ & _ & HD & HC & Hm).
  exists C, D, e, h'. repeat split; auto.
  destruct (Hm "describe") as [_ Hu]; [simpl; auto|].
  apply Hu; try discriminate; try reflexivity.
  - assert (C = 9 /\ e = 12 /\ h' !! Error_prototype = realm0 !! Error_prototype)
      as (_ & _ & Hep).
    { vm_compute in Hrun. injection Hrun as <- <- <- <-. repeat split. }
    unfold own_property. now rewrite Hep.
  - assert (h' !! Object_prototype = realm0 !! Object_prototype) as Hop.
    { vm_compute in Hrun. injection Hrun as <- <- <- <-. reflexivity. }
    unfold own_property. now rewrite Hop.
Defined.

(** ** Beyond the statements of the specification *)

(** *** The order of the own keys *)







(** *** Writing to an object anywhere in the heap *)

Lemma set_on_receiver_at h l o k v :
  h !! l = Some o -> extensible o = true -> plain_props (props o) = true ->
  k <> "__proto__" ->
  set_on_receiver l k v h
  = Normal true (<[l := set_props o (upsert k (PData v true) (props o))]> h).
Proof.
  intros Hl He Hp Hk. unfold set_on_receiver. rewrite Hl. unfold get_own.
  destruct (plain_props_assoc _ k Hp Hk) as [-> | [w ->]]; now rewrite ?He.
Qed.

Lemma Put_at f h l o k v :
  h !! l = Some o -> extensible o = true -> plain_props (props o) = true ->
  k <> "__proto__" -> settable f h k (proto o) = true -> f <= length h ->
  Put l k v h
  = Normal tt (<[l := set_props o (upsert k (PData v true) (props o))]> h).
Proof.
  intros Hl He Hp Hk Hs Hf. unfold Put, bind.
  assert (ordinary_set (S (length h)) l k v l h = set_on_receiver l k v h) as ->.
  { simpl. rewrite Hl. unfold get_own.
    destruct (plain_props_assoc _ k Hp Hk) as [-> | [w ->]]; [|reflexivity].
    destruct (proto o) as [p|] eqn:Ep; [|reflexivity].
    now apply (ordinary_set_settable f). }
  now rewrite (set_on_receiver_at h l o).
Qed.

Lemma Put_own_writable h x xo j w0 w :
  h !! x = Some xo -> get_own xo j = Some (PData w0 true) ->
  Put x j w h
  = Normal tt (<[x := set_props xo (upsert j (PData w true) (props xo))]> h).
Proof.
  intros Hx Hj. unfold Put, bind. simpl. rewrite Hx, Hj.
  unfold set_on_receiver. now rewrite Hx, Hj.
Qed.

Lemma chain_from_insert f :
  forall h x o' ol c,
    chain_from f h ol = Some c -> ~ In x c ->
    chain_from f (<[x := o']> h) ol = Some c.
Proof.
  induction f as [|f IH]; intros h x o' [l|] c; simpl; try easy.
  destruct (h !! l) as [o|] eqn:El; [|discriminate].
  destruct (chain_from f h (proto o)) as [c'|] eqn:Ec; [|discriminate].
  intros [= <-] Hx. simpl in Hx.
  rewrite list_lookup_insert_ne by (intros ->; tauto). rewrite El.
  rewrite (IH _ _ _ _ _ Ec); [reflexivity|tauto].
Qed.

Lemma find_in_chain_insert h x o' c k :
  ~ In x c -> find_in_chain (<[x := o']> h) c k = find_in_chain h c k.
Proof.
  induction c as [|l c IH]; intros Hx; [reflexivity|]. simpl in *.
  rewrite list_lookup_insert_ne by (intros ->; tauto).
  destruct (h !! l) as [o|]; [|reflexivity].
  destruct (get_own o k); [reflexivity|]. apply IH. tauto.
Qed.

(** A write to another object leaves every field of an instance as it was,
    inherited ones included. *)
Lemma field_insert_other h F P tag e ps x o' k :
  realm_facts h -> tagged_class h F P tag ->
  h !! e = Some (Obj (Some P) true ps NotCallable) ->
  ~ In x [e; P; Error_prototype; Object_prototype] ->
  field (<[x := o']> h) e k = field h e k.
Proof.
  intros Hr Hc He Hx. unfold field. rewrite length_insert.
  pose proof (instance_chain h F P e tag ps Hr Hc He) as Hchain.
  pose proof (realm_facts_length _ Hr) as Hlen.
  rewrite (ordinary_get_chain 4 _ _ _ _ _ _ Hchain) by lia.
  rewrite (ordinary_get_chain 4 _ _ _ _ _ _
             (chain_from_insert 4 _ _ o' _ _ Hchain Hx)) by lia.
  rewrite find_in_chain_insert by assumption.
  rewrite list_lookup_insert_ne; [reflexivity|]. simpl in Hx. intros ->. tauto.
Qed.

(** *** Two instances of one class *)

Lemma make_pair_total L args1 args2 h :
  realm_facts h ->
  proto_free (payload_of args1) = true -> proto_free (payload_of args2) = true ->
  make_pair L args1 args2 h
  = Normal (S (length h), S (S (length h)), S (S (S (length h))))
      (made_heap h L (assign_props (payload_of args1) (base_props L))
       ++ [Obj (Some (length h)) true
               (assign_props (payload_of args2) (base_props L)) NotCallable]).
Proof.
  intros Hr Hf1 Hf2. unfold make_pair.
  rewrite (bind_Normal _ _ _ _ _ (TaggedError_run L h Hr)). fold (with_class h L).
  pose proof (with_class_realm h L Hr) as Hr2.
  pose proof (TaggedError_class L h) as Hc2. fold (with_class h L) in Hc2.
  rewrite (bind_Normal _ _ _ _ _ (new_tagged_total _ _ _ _ _ Hr2 Hc2 Hf1)).
  fold (made_heap h L (assign_props (payload_of args1) (base_props L))).
  set (h3 := made_heap h L (assign_props (payload_of args1) (base_props L))).
  assert (realm_facts h3) as Hr3 by now apply made_realm.
  assert (tagged_class h3 (S (length h)) (length h) L) as Hc3 by apply made_class.
  rewrite (bind_Normal _ _ _ _ _ (new_tagged_total _ _ _ _ _ Hr3 Hc3 Hf2)).
  unfold ret. do 2 f_equal.
  - now rewrite with_class_length.
  - unfold h3, made_heap. rewrite length_app, with_class_length. simpl. lia.
Qed.

(** X2. Two calls of one constructor give two distinct instances of the
    class, and they are independent: an assignment to a field of either
    returns normally, takes effect there, and leaves every field of the
    other, own or inherited, as it was. *)
Theorem instances_independent (L : string) (args1 args2 : option payload)
    (h : heap) :
  realm_ok h = true ->
  proto_free (payload_of args1) = true ->
  proto_free (payload_of args2) = true ->
  exists C e1 e2 h',
    make_pair L args1 args2 h = Normal (C, e1, e2) h' /\
    e1 <> e2 /\
    instance_of (VObject e1) C h' = Normal true h' /\
    instance_of (VObject e2) C h' = Normal true h' /\
    forall k v, k <> "__proto__" ->
      (exists h'',
         Put e1 k v h' = Normal tt h'' /\
         field h'' e1 k = Some v /\
         forall k', field h'' e2 k' = field h' e2 k') /\
      (exists h'',
         Put e2 k v h' = Normal tt h'' /\
         field h'' e2 k = Some v /\
         forall k', field h'' e1 k' = field h' e1 k').
Proof.
  intros Hr Hf1 Hf2. apply realm_ok_facts in Hr.
  pose proof (realm_facts_length _ Hr) as Hlen.
  set (ps1 := assign_props (payload_of args1) (base_props L)).
  set (ps2 := assign_props (payload_of args2) (base_props L)).
  set (i1 := Obj (Some (length h)) true ps1 NotCallable).
  set (i2 := Obj (Some (length h)) true ps2 NotCallable).
  set (h3 := made_heap h L ps1). set (h4 := h3 ++ [i2]).
  exists (S (length h)), (S (S (length h))), (S (S (S (length h)))), h4.
  split; [now apply make_pair_total|].
  assert (length h3 = S (S (S (length h)))) as Hl3.
  { unfold h3, made_heap. rewrite length_app, with_class_length. simpl. lia. }
  assert (realm_facts h4) as Hr4 by (apply realm_facts_snoc; now apply made_realm).
  assert (tagged_class h4 (S (length h)) (length h) L) as Hc4
    by (apply tagged_class_snoc, made_class).
  assert (h4 !! S (S (length h)) = Some i1) as He1
    by (apply snoc_lookup_old, made_instance).
  assert (h4 !! S (S (S (length h))) = Some i2) as He2
    by (rewrite <- Hl3; apply snoc_lookup).
  assert (plain_props ps1 = true) as Hp1 by now apply assign_props_plain.
  assert (plain_props ps2 = true) as Hp2 by now apply assign_props_plain.
  assert (length h4 = S (S (S (S (length h))))) as Hl4
    by (unfold h4; rewrite length_app, Hl3; simpl; lia).
  split; [lia|].
  split; [eapply instance_of_own_class; eassumption|].
  split; [eapply instance_of_own_class; eassumption|].
  intros k v Hk.
  assert (settable 3 h4 k (Some (length h)) = true) as Hs
    by now apply (settable_tagged h4 (S (length h)) _ L).
  split.
  - eexists. split; [apply (Put_at 3 h4 (S (S (length h))) i1); auto; lia|].
    split.
    + eapply field_own_data.
      * apply list_lookup_insert_eq. rewrite Hl4. lia.
      * unfold get_own. simpl props. apply assoc_upsert_eq.
    + intros k'.
      apply (field_insert_other h4 (S (length h)) (length h) L
               (S (S (S (length h)))) ps2); try assumption.
      unfold Error_prototype, Object_prototype. simpl. lia.
  - eexists. split; [apply (Put_at 3 h4 (S (S (S (length h)))) i2); auto; lia|].
    split.
    + eapply field_own_data.
      * apply list_lookup_insert_eq. rewrite Hl4. lia.
      * unfold get_own. simpl props. apply assoc_upsert_eq.
    + intros k'.
      apply (field_insert_other h4 (S (length h)) (length h) L
               (S (S (length h))) ps1); try assumption.
      unfold Error_prototype, Object_prototype. simpl. lia.
Qed.

Lemma instances_independent_witness :
  exists C e1 e2 h',
    make_pair "NetworkError" (Some [("status", VNumber 500)])
      (Some [("status", VNumber 500)]) realm0
    = Normal (C, e1, e2) h' /\
    e1 <> e2 /\
    exists h'',
      Put e1 "status" (VNumber 0) h' = Normal tt h'' /\
      field h'' e1 "status" = Some (VNumber 0) /\
      field h'' e2 "status" = field h' e2 "status".
Proof.
  destruct (instances_independent "NetworkError" (Some [("status", VNumber 500)])
              (Some [("status", VNumber 500)]) realm0 eq_refl eq_refl eq_refl)
    as (C & e1 & e2 & h' & Hrun & Hne & _ & _ & Hw).
  exists C, e1, e2, h'. split; [exact Hrun|]. split; [exact Hne|].
  destruct (Hw "status" (VNumber 0)) as [(h'' & HP & Hf & Ho) _]; [discriminate|].
  exists h''. auto.
Defined.

(** X3. The payload copy is shallow.  A payload value that is an object
    reaches the instance as the same reference, the constructor leaves that
    object as it was, and a later write to it by whoever else holds it is
    what a read through the instance's field then sees. *)
Theorem payload_objects_shared (L : string) (source : payload) (k : string)
    (x : loc) (xo : object) (j : string) (w0 w : value) (h : heap) :
  realm_ok h = true ->
  nodup_keys source = true ->
  proto_free source = true ->
  assoc k source = Some (VObject x) ->
  h !! x = Some xo ->
  get_own xo j = Some (PData w0 true) ->
  produces h L (Some source) (fun _ e h' =>
    field h' e k = Some (VObject x) /\
    h' !! x = Some xo /\
    exists h'',
      Put x j w h' = Normal tt h'' /\
      field h'' e k = Some (VObject x) /\
      field h'' x j = Some w).
Proof.
  intros Hr Hnd Hfree Hk Hx Hj. apply produces_intro; [assumption|assumption|].
  simpl payload_of. set (ps := assign_props source (base_props L)).
  pose proof (made_instance h L ps) as He.
  pose proof (made_old h L ps x xo Hx) as Hx'.
  pose proof (lookup_lt_Some _ _ _ Hx) as Hlt.
  assert (assoc k ps = Some (PData (VObject x) true)) as Hown
    by now apply assign_props_lookup.
  split; [exact (field_own_data _ _ _ _ _ true He Hown)|].
  split; [exact Hx'|].
  eexists. split; [now apply (Put_own_writable _ _ xo j w0)|]. split.
  - apply (field_own_data _ _ (Obj (Some (length h)) true ps NotCallable) _ _ true);
      [|exact Hown].
    rewrite list_lookup_insert_ne by lia. exact He.
  - eapply field_own_data.
    + apply list_lookup_insert_eq. now apply lookup_lt_Some in Hx'.
    + unfold get_own. simpl props. apply assoc_upsert_eq.
Qed.

Lemma payload_objects_shared_witness :
  produces (realm0 ++ [request_object]) "NetworkError"
    (Some [("request", VObject extra)])
    (fun _ e h' =>
      field h' e "request" = Some (VObject extra) /\
      h' !! extra = Some request_object /\
      exists h'',
        Put extra "retries" (VNumber 3) h' = Normal tt h'' /\
        field h'' e "request" = Some (VObject extra) /\
        field h'' extra "retries" = Some (VNumber 3)).
Proof.
  apply (payload_objects_shared "NetworkError" [("request", VObject extra)]
           "request" extra request_object "retries" (VNumber 0) (VNumber 3)
           (realm0 ++ [request_object]));
    reflexivity.
Defined.

(** *** What the constructor leaves alone *)

(** X4. Construction touches nothing that exists.  The factory adds its two
    objects and changes no other; then, for no payload and for every payload
    without a key [__proto__], the constructor returns having added exactly
    one object, the instance, and every object that was there before, the
    class and its prototype included, is as it was. *)
Theorem construction_changes_nothing (L : string) (args : option payload)
    (h : heap) :
  realm_ok h = true ->
  proto_free (payload_of args) = true ->
  exists C h1 e h',
    TaggedError L h = Normal C h1 /\
    (forall l o, h !! l = Some o -> h1 !! l = Some o) /\
    new C args h1 = Normal e h' /\
    e = length h1 /\
    length h' = S (length h1) /\
    forall l o, h1 !! l = Some o -> h' !! l = Some o.
Proof.
  intros Hr Hfree. apply realm_ok_facts in Hr.
  pose proof (with_class_realm h L Hr) as Hr1.
  pose proof (TaggedError_class L h) as Hc1. fold (with_class h L) in Hc1.
  exists (S (length h)), (with_class h L). do 2 eexists.
  split; [now apply TaggedError_run|].
  split; [intros l o; apply with_class_old|].
  split; [now apply (new_tagged_total (with_class h L) (S (length h)) (length h) L)|].
  split; [reflexivity|].
  split; [rewrite length_app; simpl; lia|].
  intros l o. apply lookup_app_l_Some.
Qed.

Lemma construction_changes_nothing_witness :
  exists C h1 e h',
    TaggedError "NetworkError" realm0 = Normal C h1 /\
    new C (Some [("status", VNumber 500)]) h1 = Normal e h' /\
    length h' = S (length h1) /\
    forall l o, h1 !! l = Some o -> h' !! l = Some o.
Proof.
  destruct (construction_changes_nothing "NetworkError"
              (Some [("status", VNumber 500)]) realm0 eq_refl eq_refl)
    as (C & h1 & e & h' & Hrun & _ & Hnew & _ & Hlen & Hold).
  exists C, h1, e, h'. repeat split; assumption.
Defined.

(** *** A [__proto__] entry that is not an object *)

Lemma proto_free_of_assoc source :
  assoc "__proto__" source = None -> proto_free source = true.
Proof.
  unfold proto_free. induction source as [|[k v] source IH]; [reflexivity|].
  cbn [assoc existsb fst]. rewrite (String.eqb_sym k).
  destruct (String.eqb "__proto__" k); [discriminate|]. exact IH.
Qed.

Lemma drop_proto_free source : proto_free (drop_proto source) = true.
Proof.
  unfold proto_free, drop_proto.
  induction source as [|[k v] source IH]; [reflexivity|]. cbn [List.filter fst].
  destruct (String.eqb k "__proto__") eqn:E; cbn [negb]; [exact IH|].
  cbn [existsb fst]. rewrite E. exact IH.
Qed.

Lemma drop_proto_assoc source k :
  k <> "__proto__" -> assoc k (drop_proto source) = assoc k source.
Proof.
  intros Hk. unfold drop_proto.
  induction source as [|[k0 v] source IH]; [reflexivity|]. cbn [List.filter fst].
  destruct (String.eqb k0 "__proto__") eqn:E; cbn [negb assoc].
  - apply String.eqb_eq in E. subst k0.
    destruct (String.eqb k "__proto__") eqn:E'; [|exact IH].
    apply String.eqb_eq in E'. contradiction.
  - now rewrite IH.
Qed.

Lemma reaches_None fuel (h : heap) (t : loc) : reaches fuel h None t = Some false.
Proof. now destruct fuel. Qed.

Section ProtoEntry.
Variables (h : heap) (F P : loc) (tag : string).
Hypothesis Hrealm : realm_facts h.
Hypothesis Haccessor : proto_accessor_ok h = true.
Hypothesis Hclass : tagged_class h F P tag.

Lemma ordinary_set_proto_entry f o v :
  proto o = Some P -> assoc "__proto__" (props o) = None ->
  ordinary_set (S (S (S (S f)))) (length h) "__proto__" v (length h) (h ++ [o])
  = proto_setter (length h) v (h ++ [o]).
Proof.
  intros Hp Hown. destruct Hrealm as [op ep ec]. destruct Hclass as [fo po].
  unfold proto_accessor_ok in Haccessor. rewrite op_at, ep_at in Haccessor.
  apply andb_prop in Haccessor as [Hop Hep].
  apply bool_decide_eq_true in Hop, Hep.
  cbn [ordinary_set]. rewrite snoc_lookup. unfold get_own at 1. rewrite Hown, Hp.
  rewrite (snoc_lookup_old _ _ _ _ P_at). unfold get_own at 1. rewrite P_props.
  cbn [assoc]. change (String.eqb "__proto__" "constructor") with false.
  cbn iota. rewrite P_proto.
  rewrite (snoc_lookup_old _ _ _ _ ep_at), Hep, ep_proto.
  now rewrite (snoc_lookup_old _ _ _ _ op_at), Hop.
Qed.

Lemma Put_proto_entry o v :
  proto o = Some P -> extensible o = true ->
  assoc "__proto__" (props o) = None -> is_object v = false ->
  exists p',
    Put (length h) "__proto__" v (h ++ [o])
    = Normal tt (h ++ [Obj p' true (props o) (call o)]) /\
    (p' = Some P \/ p' = None).
Proof.
  intros Hp He Hown Hv. pose proof (realm_facts_length _ Hrealm) as Hlen.
  unfold Put, bind.
  assert (exists f, S (length (h ++ [o])) = S (S (S (S f)))) as [f ->].
  { exists (length h - 2). rewrite length_app. simpl. lia. }
  rewrite ordinary_set_proto_entry by assumption.
  destruct v; try discriminate; simpl.
  1, 3, 4, 5: exists (Some P); split; [|now left]; destruct o; simpl in *;
    subst; reflexivity.
  exists None. split; [|now right].
  unfold bind, ordinary_set_prototype_of. rewrite snoc_lookup, Hp.
  destruct (decide (Some P = None)); [discriminate|]. rewrite He.
  rewrite reaches_None. cbn [negb]. cbv iota.
  rewrite snoc_insert. destruct o; simpl in *. subst. reflexivity.
Qed.

Lemma Object_assign_dropping source :
  forall o,
    nodup_keys source = true -> proto_entry_inert source = true ->
    extensible o = true -> plain_props (props o) = true ->
    assoc "__proto__" (props o) = None ->
    proto o = Some P \/ (proto o = None /\ proto_free source = true) ->
    exists p',
      Object_assign (length h) source (h ++ [o])
      = Normal tt
          (h ++ [Obj p' true (assign_props (drop_proto source) (props o)) (call o)]).
Proof.
  pose proof (realm_facts_length _ Hrealm) as Hlen.
  induction source as [|[k v] source IH]; intros o Hnd Hin He Hp Hown Hproto.
  - exists (proto o). simpl. unfold ret. destruct o; simpl in *. subst.
    reflexivity.
  - simpl in Hnd. destruct (assoc k source) eqn:Ek; [discriminate|].
    cbn [Object_assign]. unfold bind at 1.
    destruct (String.eqb k "__proto__") eqn:E.
    + apply String.eqb_eq in E. subst k.
      assert (proto o = Some P) as HP.
      { destruct Hproto as [H|[_ H]]; [exact H|].
        apply proto_free_cons in H as [H _]. contradiction. }
      unfold proto_entry_inert in Hin. cbn [assoc] in Hin.
      rewrite String.eqb_refl in Hin. apply negb_true_iff in Hin.
      destruct (Put_proto_entry o v HP He Hown Hin) as (p' & -> & Hp').
      destruct (IH (Obj p' true (props o) (call o))) as [p'' Hrun];
        try assumption; try reflexivity.
      * unfold proto_entry_inert. now rewrite Ek.
      * simpl. destruct Hp' as [->| ->]; [now left|right].
        split; [reflexivity|]. now apply proto_free_of_assoc.
      * exists p''. rewrite Hrun. unfold drop_proto. cbn [List.filter fst].
        rewrite String.eqb_refl. reflexivity.
    + apply String.eqb_neq in E.
      rewrite (Put_instance 3); try assumption.
      * destruct (IH (set_props o (upsert k (PData v true) (props o))))
          as [p'' Hrun]; try assumption.
        -- unfold proto_entry_inert in *. cbn [assoc] in Hin.
           destruct (String.eqb "__proto__" k) eqn:E'; [|exact Hin].
           apply String.eqb_eq in E'. congruence.
        -- now apply plain_props_upsert.
        -- simpl. rewrite assoc_upsert_ne by assumption. exact Hown.
        -- simpl. destruct Hproto as [H|[H H']]; [now left|right].
           split; [exact H|]. now apply proto_free_cons in H' as [_ H'].
        -- exists p''. rewrite Hrun. unfold drop_proto. cbn [List.filter fst].
           apply String.eqb_neq in E. rewrite E. reflexivity.
      * destruct Hproto as [->|[-> _]]; [|reflexivity].
        eapply settable_tagged; eassumption.
      * lia.
Qed.
End ProtoEntry.

(** X5. A payload entry [__proto__] whose value is not an object ([null] or
    a primitive, as [JSON.parse] may deliver) is dropped without a trace:
    construction returns normally, with the very result it has for the
    payload without that entry. *)
Theorem inert_proto_entry_dropped (L : string) (source : payload) (h : heap) :
  realm_ok h = true ->
  proto_accessor_ok h = true ->
  nodup_keys source = true ->
  proto_entry_inert source = true ->
  exists C e h',
    make_error L (Some source) h = Normal (C, e) h' /\
    make_error L (Some (drop_proto source)) h = Normal (C, e) h' /\
    own_property h' e "__proto__" = None.
Proof.
  intros Hr Hacc Hnd Hin. pose proof (realm_ok_facts _ Hr) as Hf.
  set (ps := assign_props (drop_proto source) (base_props L)).
  exists (S (length h)), (S (S (length h))), (made_heap h L ps).
  split; [|split].
  - unfold make_error.
    rewrite (bind_Normal _ _ _ _ _ (TaggedError_run L h Hf)).
    fold (with_class h L).
    pose proof (with_class_realm h L Hf) as Hr1.
    pose proof (TaggedError_class L h) as Hc1. fold (with_class h L) in Hc1.
    assert (proto_accessor_ok (with_class h L) = true) as Hacc1.
    { destruct Hf as [op ep ec]. unfold proto_accessor_ok in *.
      rewrite (with_class_old _ L _ _ op_at), (with_class_old _ L _ _ ep_at).
      now rewrite op_at, ep_at in Hacc. }
    destruct (new_run (with_class h L) (S (length h)) (Some source)) as [f Hnew].
    { rewrite with_class_length. lia. }
    unfold bind at 1. rewrite Hnew.
    rewrite (constructor_start f _ _ (length h) L _ (length h))
      by eauto using tagged_class_target.
    destruct (Object_assign_dropping (with_class h L) _ _ L Hr1 Hacc1 Hc1 source
                (Obj (Some (length h)) true (base_props L) NotCallable))
      as [p' Hrun]; try assumption; try reflexivity; [now left|].
    rewrite (bind_Normal _ _ _ _ _ Hrun).
    pose proof Hc1 as [fo po F_at].
    erewrite bind_Normal; cycle 1.
    { eapply Get_own_data; [apply snoc_lookup_old|]; eassumption. }
    erewrite bind_Normal; cycle 1.
    { now apply (setPrototypeOf_instance _ (S (length h)) (length h) L). }
    unfold ret, made_heap. now rewrite with_class_length.
  - apply make_error_total; [assumption|]. apply drop_proto_free.
  - unfold own_property. rewrite made_instance. unfold get_own, ps. simpl props.
    rewrite assign_props_other; [reflexivity|].
    apply proto_free_assoc, drop_proto_free.
Qed.

Lemma inert_proto_entry_dropped_witness :
  exists C e h',
    make_error "E" (Some [("a", VNumber 1); ("__proto__", VNull); ("b", VNumber 2)])
      realm0 = Normal (C, e) h' /\
    make_error "E" (Some [("a", VNumber 1); ("b", VNumber 2)]) realm0
    = Normal (C, e) h' /\
    own_property h' e "__proto__" = None.
Proof.
  apply (inert_proto_entry_dropped "E"
           [("a", VNumber 1); ("__proto__", VNull); ("b", VNumber 2)] realm0);
    reflexivity.
Defined.

(** *** Instances made through a subclass *)

Lemma with_derived_length h tag name methods :
  length (with_derived h tag name methods) = S (S (S (S (length h)))).
Proof. unfold with_derived. rewrite length_app, with_class_length. simpl. lia. Qed.

Lemma make_derived_total L name methods args h :
  realm_facts h -> proto_free (payload_of args) = true ->
  make_derived L name methods args h
  = Normal (S (length h), S (S (S (length h))), S (S (S (S (length h)))))
      (with_derived h L name methods
       ++ [Obj (Some (length h)) true
               (assign_props (payload_of args) (base_props L)) NotCallable]).
Proof.
  intros Hr Hfree. pose proof (realm_facts_length _ Hr) as Hlen.
  pose proof (with_class_realm h L Hr) as Hr1.
  pose proof (with_class_length h L) as Hl1.
  pose proof (TaggedError_class L h) as Hc1. fold (with_class h L) in Hc1.
  unfold make_derived.
  rewrite (bind_Normal _ _ _ _ _ (TaggedError_run L h Hr)). fold (with_class h L).
  rewrite (bind_Normal _ _ _ _ _ (extend_run name methods _ _ _ L Hc1)).
  destruct (new_derived_run name methods (with_class h L) (S (length h))
              (length h) args) as [f Hnew]; [lia|].
  unfold bind. rewrite Hnew.
  rewrite (constructor_total f _ _ (length h) L _ (length (with_class h L)));
    try assumption.
  - unfold with_derived. rewrite length_app, Hl1. simpl length.
    replace (S (S (length h)) + 2) with (S (S (S (S (length h))))) by lia.
    reflexivity.
  - now apply realm_facts_snoc.
  - now apply tagged_class_snoc.
  - now apply (derived_target name methods _ _ _ L).
Qed.

Section Derived.
Variables (h : heap) (L name : string) (methods : list (string * value))
  (ps : list (string * property)).
Hypothesis Hrealm : realm_facts h.



Lemma derived_instance :
  (with_derived h L name methods ++ [Obj (Some (length h)) true ps NotCallable])
    !! S (S (S (S (length h))))
  = Some (Obj (Some (length h)) true ps NotCallable).
Proof. rewrite <- (with_derived_length h L name methods). apply snoc_lookup. Qed.

End Derived.



(** *** The discriminating caller of the README *)

Lemma to_text_run v s h : text_of v = Some s -> to_text v h = Normal s h.
Proof. unfold to_text. now intros ->. Qed.

(** X7. The README's [handleError], given an instance made through a
    subclass of [TaggedError(L)] whose payload leaves [_tag] alone, takes the
    branch of [L] and no other: for [ValidationError] it logs
    [Invalid <field>: <value>], for [NetworkError] it logs
    [HTTP <status> at <endpoint>], for any other label it logs nothing. *)
Theorem handleError_routes (L name : string) (methods : list (string * value))
    (source : payload) (h : heap) :
  realm_ok h = true ->
  nodup_keys source = true ->
  proto_free source = true ->
  assoc "_tag" source = None ->
  exists C D e h',
    make_derived L name methods (Some source) h = Normal (C, D, e) h' /\
    (L = "ValidationError" ->
     forall f v sf sv,
       assoc "field" source = Some f -> assoc "value" source = Some v ->
       text_of f = Some sf -> text_of v = Some sv ->
       handleError e h'
       = Normal (Some (String.append "Invalid "
                         (String.append sf (String.append ": " sv)))) h') /\
    (L = "NetworkError" ->
     forall st ep sst sep,
       assoc "status" source = Some st -> assoc "endpoint" source = Some ep ->
       text_of st = Some sst -> text_of ep = Some sep ->
       handleError e h'
       = Normal (Some (String.append "HTTP "
                         (String.append sst (String.append " at " sep)))) h') /\
    (L <> "ValidationError" -> L <> "NetworkError" ->
     handleError e h' = Normal None h').
Proof.
  intros Hr Hnd Hfree Htag. apply realm_ok_facts in Hr.
  set (ps := assign_props source (base_props L)).
  do 4 eexists. split; [now apply make_derived_total|].
  simpl payload_of. fold ps.
  pose proof (derived_instance h L name methods ps) as He.
  assert (forall k v, assoc k source = Some v ->
            Get (S (S (S (S (length h))))) k
              (with_derived h L name methods
               ++ [Obj (Some (length h)) true ps NotCallable])
            = Normal v
                (with_derived h L name methods
                 ++ [Obj (Some (length h)) true ps NotCallable])) as Hget.
  { intros k v Hk. eapply Get_own_data; [exact He|].
    unfold get_own. simpl props. now apply assign_props_lookup. }
  assert (Get (S (S (S (S (length h))))) "_tag"
            (with_derived h L name methods
             ++ [Obj (Some (length h)) true ps NotCallable])
          = Normal (VString L)
              (with_derived h L name methods
               ++ [Obj (Some (length h)) true ps NotCallable])) as Htagget.
  { eapply Get_own_data; [exact He|]. unfold get_own, ps. simpl props.
    rewrite assign_props_other by assumption. reflexivity. }
  unfold handleError. rewrite (bind_Normal _ _ _ _ _ Htagget).
  unfold is_string. repeat split.
  - intros -> f v sf sv Hf Hv Hsf Hsv.
    change (String.eqb "ValidationError" "ValidationError") with true. cbv iota.
    rewrite (bind_Normal _ _ _ _ _ (Hget _ _ Hf)).
    rewrite (bind_Normal _ _ _ _ _ (Hget _ _ Hv)).
    rewrite (bind_Normal _ _ _ _ _ (to_text_run _ _ _ Hsf)).
    now rewrite (bind_Normal _ _ _ _ _ (to_text_run _ _ _ Hsv)).
  - intros -> st ep sst sep Hst Hep Hsst Hsep.
    change (String.eqb "NetworkError" "ValidationError") with false.
    change (String.eqb "NetworkError" "NetworkError") with true. cbv iota.
    rewrite (bind_Normal _ _ _ _ _ (Hget _ _ Hst)).
    rewrite (bind_Normal _ _ _ _ _ (Hget _ _ Hep)).
    rewrite (bind_Normal _ _ _ _ _ (to_text_run _ _ _ Hsst)).
    now rewrite (bind_Normal _ _ _ _ _ (to_text_run _ _ _ Hsep)).
  - intros HV HN. apply String.eqb_neq in HV, HN. now rewrite HV, HN.
Qed.

Lemma handleError_routes_witness :
  exists C D e h',
    make_derived "NetworkError" "NetworkError" []
      (Some [("status", VNumber 404); ("endpoint", VString "/api/users")]) realm0
    = Normal (C, D, e) h' /\
    handleError e h' = Normal (Some "HTTP 404 at /api/users") h'.
Proof.
  destruct (handleError_routes "NetworkError" "NetworkError" []
              [("status", VNumber 404); ("endpoint", VString "/api/users")]
              realm0 eq_refl eq_refl eq_refl eq_refl)
    as (C & D & e & h' & Hrun & _ & HN & _).
  exists C, D, e, h'. split; [exact Hrun|].
  exact (HN eq_refl (VNumber 404) (VString "/api/users") "404" "/api/users"
           eq_refl eq_refl eq_refl eq_refl).
Defined.
